(** * SubHunter: the subdomain pipeline of [SubHunter.py], embedded and verified

    The development follows the layout of the script:

    - [PyStr]: the Python string methods the pipeline calls
      ([str.strip], [str.splitlines], [str.split], [str.replace],
      [str.endswith], the [in] operator and [sorted]);
    - [json], [exn]: decoded response bodies and the exceptions the code
      can raise or catch;
    - the world: a log of HTTP attempts, sleeps, log records, console output
      and written files, threaded through a state-and-exception monad;
    - [requests_retry_session], [fetch_subdomains], [process_subdomains],
      [save_to_file] and the main block, in source order;
    - the theorems, one group per property of the specification.

    Strings are [string]s whose characters stand for the code points below
    256; on that range the character classes used by [str.strip] and
    [str.splitlines] are written out in full.  Durations (the float seconds
    of the script) are integers in milliseconds. *)

From stdpp Require Import gmap strings list sorting.
From Stdlib Require Import ZArith Ascii.

Set Warnings "-register-all,-clear-no-such-hyp".
Open Scope string_scope.

(** ** Python string methods *)

Module PyStr.

Definition code (c : ascii) : N := N_of_ascii c.

(** [str.isspace] on one character: U+0009..U+000D, U+001C..U+0020,
    U+0085 and U+00A0 are the white-space code points below 256. *)
Definition isspace (c : ascii) : bool :=
  let n := code c in
  ((9 <=? n) && (n <=? 13) || (28 <=? n) && (n <=? 32)
   || (n =? 133) || (n =? 160))%N.

(** Line boundaries of [str.splitlines] below 256: LF, VT, FF, CR, FS, GS,
    RS and NEL (CR LF counts as one boundary, see [splitlines_from]). *)
Definition islinebreak (c : ascii) : bool :=
  let n := code c in
  ((10 <=? n) && (n <=? 13) || (28 <=? n) && (n <=? 30) || (n =? 133))%N.

Definition CR : ascii := ascii_of_N 13.
Definition LF : ascii := ascii_of_N 10.
Definition ESC : ascii := ascii_of_N 27.

Fixpoint lstrip (s : string) : string :=
  match s with
  | EmptyString => EmptyString
  | String c s' => if isspace c then lstrip s' else s
  end.

Fixpoint rstrip (s : string) : string :=
  match s with
  | EmptyString => EmptyString
  | String c s' =>
      match rstrip s' with
      | EmptyString => if isspace c then EmptyString else String c EmptyString
      | r => String c r
      end
  end.

(** [s.strip()] *)
Definition strip (s : string) : string := rstrip (lstrip s).

Definition snoc (s : string) (c : ascii) : string := s ++ String c EmptyString.

(** [splitlines_from line s]: [line] is the text of the current line read
    so far.  A final line without a terminator is kept when it is not
    empty; a terminator at the very end opens no further line. *)
Fixpoint splitlines_from (line s : string) : list string :=
  match s with
  | EmptyString => match line with EmptyString => [] | _ => [line] end
  | String c s' =>
      if Ascii.eqb c CR then
        match s' with
        | String c' s'' =>
            if Ascii.eqb c' LF then line :: splitlines_from EmptyString s''
            else line :: splitlines_from EmptyString s'
        | EmptyString => line :: splitlines_from EmptyString s'
        end
      else if islinebreak c then line :: splitlines_from EmptyString s'
      else splitlines_from (snoc line c) s'
  end.

(** [s.splitlines()] *)
Definition splitlines (s : string) : list string :=
  splitlines_from EmptyString s.

(** [s.split(sep)] for a one-character separator. *)
Fixpoint split_from (sep : ascii) (field s : string) : list string :=
  match s with
  | EmptyString => [field]
  | String c s' =>
      if Ascii.eqb c sep then field :: split_from sep EmptyString s'
      else split_from sep (snoc field c) s'
  end.

Definition split (sep : ascii) (s : string) : list string :=
  split_from sep EmptyString s.

(** [s.replace(c, new)] for a one-character pattern [c]. *)
Fixpoint replace (c : ascii) (new s : string) : string :=
  match s with
  | EmptyString => EmptyString
  | String x s' =>
      if Ascii.eqb x c then new ++ replace c new s'
      else String x (replace c new s')
  end.

(** [c in s] for a one-character [c]. *)
Fixpoint contains (c : ascii) (s : string) : bool :=
  match s with
  | EmptyString => false
  | String x s' => Ascii.eqb x c || contains c s'
  end.

(** [s.endswith(suffix)] *)
Fixpoint endswith (s suffix : string) : bool :=
  String.eqb s suffix
  || match s with
     | EmptyString => false
     | String _ s' => endswith s' suffix
     end.

(** Truth value of a string: [bool(s)]. *)
Definition truthy (s : string) : bool :=
  match s with EmptyString => false | _ => true end.

(** The order of [sorted] on strings: code point by code point, a proper
    prefix first. *)
Definition le (a b : string) : Prop := String.leb a b = true.

#[global] Instance le_dec a b : Decision (le a b).
Proof. unfold le. apply _. Defined.

(** [sorted(xs)] *)
Definition sorted (xs : list string) : list string := merge_sort le xs.

Fixpoint concat (xs : list string) : string :=
  match xs with
  | [] => EmptyString
  | x :: xs' => x ++ concat xs'
  end.

End PyStr.

(** ** Decoded response bodies *)

(** What [response.json()] can return.  A JSON object is a Python [dict]:
    keys are unique.  A number matters to the pipeline only through its
    truth value: [JNum n] stands for a number that is zero exactly when [n]
    is. *)
Inductive json : Type :=
  | JNull
  | JBool (b : bool)
  | JNum (n : Z)
  | JStr (s : string)
  | JArr (items : list json)
  | JObj (fields : gmap string json).

(** ** Exceptions *)

(** The subclasses of [requests.RequestException] the fetch can meet. *)
Inductive request_error : Type :=
  | ConnectionError          (* connection or read failure, retries used up *)
  | RetryError               (* too many responses with a retried status *)
  | HTTPError (status : Z)   (* raised by [raise_for_status] *)
  | JSONDecodeError.         (* raised by [response.json()] *)

Inductive exn : Type :=
  | RequestException (e : request_error)
  | ValueError
  | TypeError
  | AttributeError
  | OSError.

(** [exn + A]: a computation that returns or raises. *)
Definition Res (A : Type) : Type := exn + A.

Definition res_bind {A B} (c : Res A) (k : A → Res B) : Res B :=
  match c with
  | inl e => inl e
  | inr a => k a
  end.

(** ** The world *)

(** One HTTP attempt on the wire: the request and its retry index. *)
Record Sent : Type := {
  sent_url : string;
  sent_user_agent : string;
  sent_timeout : Z;
  sent_try : nat
}.

Record Response : Type := {
  status_code : Z;
  retry_after : option Z;    (* the Retry-After header, when present *)
  body : option json         (* [None]: the body is not JSON *)
}.

Inductive Outcome : Type :=
  | ConnectFailure
  | ReadFailure
  | Responded (r : Response).

(** The remote side: what happens to an attempt, given all earlier ones. *)
Definition Network : Type := list Sent → Sent → Outcome.

(** Iteration order of a Python [set]: some enumeration of its members. *)
Record SetOrder : Type := {
  enumerate :> gset string → list string;
  enumerate_perm : ∀ X, enumerate X ≡ₚ elements X
}.

Record Env : Type := {
  net : Network;
  set_order : SetOrder;
  can_open : string → bool;     (* does [open(path, 'w')] succeed *)
  exn_str : exn → string        (* [str(e)] *)
}.

Inductive level : Type := INFO | ERROR.

Inductive FileContent : Type :=
  | FileJson (document : json)   (* written by [json.dump] *)
  | FileText (text : string).

Record State : Type := {
  sent : list Sent;                   (* attempts, oldest first *)
  slept : list Z;                     (* [time.sleep] calls, oldest first *)
  log_records : list (level * string);
  console : string;
  files : gmap string FileContent
}.

Definition initial_state : State :=
  {| sent := []; slept := []; log_records := []; console := EmptyString;
     files := ∅ |}.

(** State and exceptions. *)
Definition M (A : Type) : Type := State → Res A * State.

Definition ret {A} (a : A) : M A := λ st, (inr a, st).

Definition raise {A} (e : exn) : M A := λ st, (inl e, st).

Definition bind {A B} (c : M A) (k : A → M B) : M B :=
  λ st, match c st with
        | (inl e, st') => (inl e, st')
        | (inr a, st') => k a st'
        end.

Definition lift {A} (r : Res A) : M A := λ st, (r, st).

(** [try: body except <class> as e: handler e], [catches e] telling whether
    [e] is an instance of the class. *)
Definition try_except {A} (body : M A) (catches : exn → bool)
    (handler : exn → M A) : M A :=
  λ st, match body st with
        | (inl e, st') => if catches e then handler e st' else (inl e, st')
        | r => r
        end.

Notation "x <- c ;; k" := (bind c (λ x, k))
  (at level 100, c at next level, right associativity).
Notation "c ;;; k" := (bind c (λ _, k))
  (at level 100, right associativity).

Definition record_sent (a : Sent) : State → State :=
  λ st, {| sent := sent st ++ [a]; slept := slept st;
           log_records := log_records st; console := console st;
           files := files st |}.

Definition record_sleep (ms : Z) : State → State :=
  λ st, {| sent := sent st; slept := slept st ++ [ms];
           log_records := log_records st; console := console st;
           files := files st |}.

Definition record_log (l : level) (msg : string) : State → State :=
  λ st, {| sent := sent st; slept := slept st;
           log_records := log_records st ++ [(l, msg)]; console := console st;
           files := files st |}.

Definition record_print (text : string) : State → State :=
  λ st, {| sent := sent st; slept := slept st;
           log_records := log_records st; console := console st ++ text;
           files := files st |}.

Definition record_file (path : string) (c : FileContent) : State → State :=
  λ st, {| sent := sent st; slept := slept st;
           log_records := log_records st; console := console st;
           files := <[path := c]> (files st) |}.

(** [time.sleep(secs)]: a negative argument raises [ValueError]. *)
Definition time_sleep (ms : Z) : M unit :=
  λ st, if (ms <? 0)%Z then (inl ValueError, st)
        else (inr tt, record_sleep ms st).

Definition logging_info (msg : string) : M unit :=
  λ st, (inr tt, record_log INFO msg st).

Definition logging_error (msg : string) : M unit :=
  λ st, (inr tt, record_log ERROR msg st).

Module Colors.
Definition RED : string := String PyStr.ESC "[91m".
Definition GREEN : string := String PyStr.ESC "[92m".
Definition RESET : string := String PyStr.ESC "[0m".
End Colors.

Fixpoint colored (text color : string) : string :=
  match text with
  | EmptyString => EmptyString
  | String c text' =>
      color ++ String c EmptyString ++ Colors.RESET ++ colored text' color
  end.

(** [print_colored(text, color)], with the default [end] and the default
    [delay] of zero, the only way the script calls it. *)
Definition print_colored (text color : string) : M unit :=
  λ st, (inr tt, record_print (colored text color ++ String PyStr.LF EmptyString) st).

(** ** [requests_retry_session]: the retry policy handed to urllib3 *)

(** The arguments of [Retry(...)].  [backoff_factor] is in milliseconds. *)
Record Retry : Type := {
  total : nat;
  read : nat;
  connect : nat;
  backoff_factor : Z;
  status_forcelist : list Z
}.

Record Session : Type := { max_retries : Retry }.

Definition requests_retry_session (retries : nat) (backoff_factor : Z)
    (status_forcelist : list Z) : Session :=
  {| max_retries :=
       {| total := retries; read := retries; connect := retries;
          backoff_factor := backoff_factor;
          status_forcelist := status_forcelist |} |}.

(** The defaults of the [def]: [retries=3, backoff_factor=0.3,
    status_forcelist=(500, 502, 504)]. *)
Definition default_retries : nat := 3.
Definition default_backoff_factor : Z := 300.
Definition default_status_forcelist : list Z := [500; 502; 504]%Z.

(** urllib3: statuses for which a Retry-After header is honoured. *)
Definition RETRY_AFTER_STATUS_CODES : list Z := [413; 429; 503]%Z.

(** urllib3: [Retry.DEFAULT_BACKOFF_MAX], 120 seconds. *)
Definition BACKOFF_MAX : Z := 120000.

(** urllib3 [Retry.is_retry] for a GET, with [total] retries left. *)
Definition is_retry (retry : Retry) (total : nat) (status : Z)
    (has_retry_after : bool) : bool :=
  bool_decide (status ∈ status_forcelist retry)
  || (negb (Nat.eqb total 0) && has_retry_after
      && bool_decide (status ∈ RETRY_AFTER_STATUS_CODES)).

(** urllib3 [Retry.get_backoff_time] after [failures] consecutive failed
    attempts. *)
Definition get_backoff_time (retry : Retry) (failures : nat) : Z :=
  if (failures <=? 1)%nat then 0%Z
  else Z.max 0 (Z.min BACKOFF_MAX
                  (backoff_factor retry * 2 ^ Z.of_nat (failures - 1))).

(** urllib3 sleeps only for a positive time. *)
Definition sleep_backoff (retry : Retry) (failures : nat) (st : State) : State :=
  let t := get_backoff_time retry failures in
  if (0 <? t)%Z then record_sleep t st else st.

(** urllib3 [Retry.sleep(response)]: a non-zero Retry-After first, the
    backoff otherwise. *)
Definition sleep_response (retry : Retry) (failures : nat) (r : Response)
    (st : State) : State :=
  match retry_after r with
  | Some t => if (0 <? t)%Z then record_sleep t st
              else sleep_backoff retry failures st
  | None => sleep_backoff retry failures st
  end.

(** [response.raise_for_status()] *)
Definition raise_for_status (r : Response) : M unit :=
  if ((400 <=? status_code r) && (status_code r <? 600))%Z
  then raise (RequestException (HTTPError (status_code r)))
  else ret tt.

(** [response.json()] *)
Definition response_json (r : Response) : M json :=
  match body r with
  | Some j => ret j
  | None => raise (RequestException JSONDecodeError)
  end.

Definition is_RequestException (e : exn) : bool :=
  match e with
  | RequestException _ => true
  | _ => false
  end.

Definition is_Exception (e : exn) : bool := true.

(** [BASE_URL.format(q)] *)
Definition BASE_URL (q : string) : string :=
  "https://crt.sh/?q=" ++ q ++ "&output=json".

(** ** Reading the records *)

(** [bool(j)] *)
Definition truthy (j : json) : bool :=
  match j with
  | JNull => false
  | JBool b => b
  | JNum n => negb (n =? 0)%Z
  | JStr s => PyStr.truthy s
  | JArr items => match items with [] => false | _ => true end
  | JObj fields => negb (Nat.eqb (size fields) 0)
  end.

(** [for entry in j]: a list gives its items, a dict its keys, a string its
    characters; other values are not iterable. *)
Definition iterate (j : json) : Res (list json) :=
  match j with
  | JArr items => inr items
  | JObj fields => inr (JStr <$> (map_to_list fields).*1)
  | JStr s => inr ((λ c, JStr (String c EmptyString)) <$> String.list_ascii_of_string s)
  | _ => inl TypeError
  end.

(** [entry.get('name_value', '')]: only a dict has [get]. *)
Definition get_name_value (entry : json) : Res json :=
  match entry with
  | JObj fields => inr (default (JStr EmptyString) (fields !! "name_value"))
  | _ => inl AttributeError
  end.

(** [name_value.splitlines()]: only a string has [splitlines]. *)
Definition json_splitlines (name_value : json) : Res (list string) :=
  match name_value with
  | JStr s => inr (PyStr.splitlines s)
  | _ => inl AttributeError
  end.

(** The two sets of [process_subdomains]. *)
Record Sets : Type := {
  subdomains : gset string;
  wildcard_subdomains : gset string
}.

Definition empty_sets : Sets :=
  {| subdomains := ∅; wildcard_subdomains := ∅ |}.

(** The nested [add_subdomain]. *)
Definition add_subdomain (subdomain : string) (sets : Sets) : Sets :=
  if PyStr.contains "*" subdomain
  then {| subdomains := subdomains sets;
          wildcard_subdomains := {[subdomain]} ∪ wildcard_subdomains sets |}
  else {| subdomains := {[subdomain]} ∪ subdomains sets;
          wildcard_subdomains := wildcard_subdomains sets |}.

(** [for subname in subnames: add_subdomain(subname.strip())] *)
Definition add_subnames (subnames : list string) (sets : Sets) : Sets :=
  foldl (λ acc subname, add_subdomain (PyStr.strip subname) acc) sets subnames.

(** The body of [for entry in jsondata]. *)
Definition add_entry (entry : json) (sets : Sets) : Res Sets :=
  res_bind (get_name_value entry) (λ name_value,
  res_bind (json_splitlines name_value) (λ subnames,
  inr (add_subnames subnames sets))).

Fixpoint add_entries (entries : list json) (sets : Sets) : Res Sets :=
  match entries with
  | [] => inr sets
  | entry :: rest => res_bind (add_entry entry sets) (add_entries rest)
  end.

(** [for entry in jsondata: ...] on any decoded value. *)
Definition process_entries (jsondata : json) (sets : Sets) : Res Sets :=
  res_bind (iterate jsondata) (λ entries, add_entries entries sets).

(** ** The wildcard policy and the extension filter *)

(** [if wildcard: subdomains.update(wildcard_subdomains)] then
    [if exclude_wildcards: subdomains.difference_update(wildcard_subdomains)] *)
Definition merge_wildcards (wildcard exclude_wildcards : bool) (sets : Sets)
    : gset string :=
  let s := if wildcard then subdomains sets ∪ wildcard_subdomains sets
           else subdomains sets in
  if exclude_wildcards then s ∖ wildcard_subdomains sets else s.

(** The inner [for ext in extensions.split(',')] with its [break]: does some
    entry match. *)
Definition matches_extension (extensions subdomain : string) : bool :=
  existsb (λ ext, PyStr.endswith subdomain ("." ++ PyStr.strip ext))
          (PyStr.split "," extensions).

(** [if extensions: ...]: [None] and the empty string skip the filter. *)
Definition filter_extensions (extensions : option string) (s : gset string)
    : gset string :=
  match extensions with
  | Some exts =>
      if PyStr.truthy exts
      then filter (λ subdomain, matches_extension exts subdomain = true) s
      else s
  | None => s
  end.

(** ** The program, in an environment *)

Section Program.

Variable env : Env.

(** urllib3 [urlopen] under a [Retry]: [total], [read] and [connect] are
    the counters still left, [tries] the number of failed attempts so far.
    A failure decrements [total] and its own counter; when one of them would
    drop below zero the retries are exhausted and the adapter raises. *)
Fixpoint urlopen (retry : Retry) (url user_agent : string) (timeout : Z)
    (total read connect tries : nat) (st : State) : Res Response * State :=
  let attempt := {| sent_url := url; sent_user_agent := user_agent;
                    sent_timeout := timeout; sent_try := tries |} in
  let outcome := net env (sent st) attempt in
  let st := record_sent attempt st in
  match outcome with
  | ConnectFailure =>
      match total, connect with
      | S total', S connect' =>
          urlopen retry url user_agent timeout total' read connect' (S tries)
                  (sleep_backoff retry (S tries) st)
      | _, _ => (inl (RequestException ConnectionError), st)
      end
  | ReadFailure =>
      match total, read with
      | S total', S read' =>
          urlopen retry url user_agent timeout total' read' connect (S tries)
                  (sleep_backoff retry (S tries) st)
      | _, _ => (inl (RequestException ConnectionError), st)
      end
  | Responded r =>
      if is_retry retry total (status_code r) (bool_decide (is_Some (retry_after r)))
      then match total with
           | S total' =>
               urlopen retry url user_agent timeout total' read connect (S tries)
                       (sleep_response retry (S tries) r st)
           | O => (inl (RequestException RetryError), st)
           end
      else (inr r, st)
  end.

(** [session.get(url, headers={'User-Agent': user_agent}, timeout=timeout)]:
    a timeout that is not positive is refused with [ValueError] before
    anything is sent. *)
Definition session_get (session : Session) (url user_agent : string)
    (timeout : Z) : M Response :=
  λ st, if (timeout <=? 0)%Z then (inl ValueError, st)
        else let retry := max_retries session in
             urlopen retry url user_agent timeout
                     (total retry) (read retry) (connect retry) 0 st.

Definition fetch_subdomains (domain user_agent : string) (timeout : Z)
    (verbose : bool) (rate_limit : Z) : M json :=
  let session := requests_retry_session default_retries default_backoff_factor
                                        default_status_forcelist in
  try_except
    (response <- session_get session (BASE_URL domain) user_agent timeout ;;
     raise_for_status response ;;;
     (if verbose then logging_info ("Fetched data for " ++ domain) else ret tt) ;;;
     time_sleep rate_limit ;;;
     response_json response)
    is_RequestException
    (λ e, logging_error ("Error fetching data from CRT.SH: " ++ exn_str env e) ;;;
          ret (JArr [])).

(** The body of [for wildcard_subdomain in list(wildcard_subdomains)]. *)
Definition expand_wildcard (user_agent : string) (timeout : Z) (verbose : bool)
    (rate_limit : Z) (wildcard_subdomain : string) (sets : Sets) : M Sets :=
  let wildcard_subdomain_encoded := PyStr.replace "*" "%25" wildcard_subdomain in
  jsondata_recursive <-
    fetch_subdomains wildcard_subdomain_encoded user_agent timeout verbose rate_limit ;;
  if negb (truthy jsondata_recursive) then ret sets
  else lift (process_entries jsondata_recursive sets).

(** The loop over the snapshot taken by [list(wildcard_subdomains)]. *)
Fixpoint expand_wildcards (user_agent : string) (timeout : Z) (verbose : bool)
    (rate_limit : Z) (snapshot : list string) (sets : Sets) : M Sets :=
  match snapshot with
  | [] => ret sets
  | wildcard_subdomain :: rest =>
      sets' <- expand_wildcard user_agent timeout verbose rate_limit
                               wildcard_subdomain sets ;;
      expand_wildcards user_agent timeout verbose rate_limit rest sets'
  end.

Definition process_subdomains (domain : string)
    (recursive wildcard exclude_wildcards verbose : bool) (user_agent : string)
    (timeout rate_limit : Z) (extensions : option string) : M (gset string) :=
  jsondata <- fetch_subdomains domain user_agent timeout verbose rate_limit ;;
  if negb (truthy jsondata) then ret ∅
  else
    sets <- lift (process_entries jsondata empty_sets) ;;
    sets <- (if recursive
             then expand_wildcards user_agent timeout verbose rate_limit
                    (set_order env (wildcard_subdomains sets)) sets
             else ret sets) ;;
    ret (filter_extensions extensions
           (merge_wildcards wildcard exclude_wildcards sets)).

(** [open(output_file, 'w')] followed by the writes. *)
Definition write_file (output_file : string) (c : FileContent) : M unit :=
  λ st, if can_open env output_file
        then (inr tt, record_file output_file c st)
        else (inl OSError, st).

(** The text of the [else] branch: [file.write(f"{subdomain}\n")] for each
    member of [sorted(subdomains)]. *)
Definition csv_text (subdomains : gset string) : string :=
  PyStr.concat
    ((λ subdomain, subdomain ++ String PyStr.LF EmptyString)
       <$> PyStr.sorted (set_order env subdomains)).

Definition save_to_file (subdomains : gset string) (output_file : string)
    (output_format : option string) : M unit :=
  try_except
    ((if bool_decide (output_format = Some "json")
      then
        let subdomains_list := set_order env subdomains in
        let subdomains_dict :=
          JObj {[ "subdomains" := JArr (JStr <$> subdomains_list) ]} in
        write_file output_file (FileJson subdomains_dict)
      else write_file output_file (FileText (csv_text subdomains))) ;;;
     logging_info ("Subdomains saved to " ++ output_file))
    is_Exception
    (λ e, logging_error ("Error saving to file: " ++ exn_str env e) ;;;
          print_colored ("Error saving to file: " ++ exn_str env e) Colors.RED).

End Program.

(** ** The command line and the main block *)

Module Args.
Record t : Type := {
  domain : string;
  recursive : bool;
  wildcard : bool;
  output : option string;
  verbose : bool;
  exclude_wildcards : bool;
  user_agent : string;
  rate_limit : Z;
  timeout : Z;
  log : string;
  extensions : option string;
  format : option string;
  interactive : bool;
  technique : string
}.


(** The [choices] of [--technique] and of [--format]. *)
Definition technique_choices : list string := ["crtsh"; "dns"; "bruteforce"].
Definition format_choices : list string := ["csv"; "json"].
End Args.

(** [x if x else None] and [if x:] on an optional string. *)
Definition option_truthy (x : option string) : bool :=
  match x with
  | Some s => PyStr.truthy s
  | None => false
  end.



(** ** The banner *)

(** [s * n] on strings: nothing when [n] is not positive. *)
Fixpoint repeat_string (s : string) (n : nat) : string :=
  match n with
  | O => EmptyString
  | S n' => s ++ repeat_string s n'
  end.

(** [s * n] for an integer [n] of any sign. *)
Definition string_times (s : string) (n : Z) : string :=
  repeat_string s (Z.to_nat n).

(** ["\n" + "  " + "»" * 78 + "\n"]: the rule is 78 times U+00BB. *)
Definition decorative_line : string :=
  String PyStr.LF
    ("  " ++ string_times (String (ascii_of_N 187) EmptyString) 78
     ++ String PyStr.LF EmptyString).

(** [len(decorative_line.strip())] *)
Definition total_width : Z :=
  Z.of_nat (String.length (PyStr.strip decorative_line)).

(** [" " * ((total_width - len(ascii_art)) // 2)] *)
Definition art_padding (ascii_art : string) : string :=
  string_times " " ((total_width - Z.of_nat (String.length ascii_art)) / 2).

(** [display_ascii_art(ascii_art)] *)
Definition display_ascii_art (ascii_art : string) : M unit :=
  let spaces := art_padding ascii_art in
  print_colored decorative_line Colors.GREEN ;;;
  print_colored (spaces ++ ascii_art) Colors.GREEN ;;;
  print_colored decorative_line Colors.GREEN.

(** ** Concrete environments, for running the model *)

Definition elements_order : SetOrder :=
  {| enumerate := elements; enumerate_perm := λ X, reflexivity (elements X) |}.

Definition ok_response (j : json) : Outcome :=
  Responded {| status_code := 200; retry_after := None; body := Some j |}.


(** One record with the given name field. *)
Definition record (name_value : string) : json :=
  JObj {[ "name_value" := JStr name_value ]}.

(** [a ++ LF ++ b] *)
Definition lines2 (a b : string) : string := a ++ String PyStr.LF b.

(** A scripted server: per URL, the outcome of the first, second, ...
    attempt; anything not scripted fails to connect. *)
Definition scripted (script : list (string * list Outcome)) : Network :=
  λ _ attempt,
    match list_find (λ p, p.1 = sent_url attempt) script with
    | Some (_, (_, outcomes)) =>
        default ConnectFailure (outcomes !! sent_try attempt)
    | None => ConnectFailure
    end.

Definition test_env (script : list (string * list Outcome)) : Env :=
  {| net := scripted script; set_order := elements_order;
     can_open := λ _, true; exn_str := λ _, "error" |}.

(** The scenario of the specification: one record naming a concrete and a
    wildcard host. *)
Definition example_script : list (string * list Outcome) :=
  [ (BASE_URL "example.com",
     [ok_response (JArr [record (lines2 "a.example.com" "*.example.com")])]);
    (BASE_URL "%25.example.com",
     [ok_response (JArr [record (lines2 "b.example.com" "*.dev.example.com")])]) ].




(** The extension scenario of the specification. *)
Definition extension_script : list (string * list Outcome) :=
  [ (BASE_URL "example.com",
     [ok_response (JArr [record (lines2 "a.example.com" "b.example.org")])]) ].

(** A record whose name field has a line of two spaces. *)
Definition blank_line_script : list (string * list Outcome) :=
  [ (BASE_URL "example.com",
     [ok_response (JArr [record (lines2 "a.example.com" "  ")])]) ].

(** ** Vocabulary of the statements *)

(** The [k]-th attempt of one [session.get] call. *)
Definition attempt (url user_agent : string) (timeout : Z) (k : nat) : Sent :=
  {| sent_url := url; sent_user_agent := user_agent; sent_timeout := timeout;
     sent_try := k |}.

(** Attempts [from], [from + 1], ..., [from + n - 1] of one call. *)
Definition attempts (url user_agent : string) (timeout : Z) (from n : nat)
    : list Sent :=
  attempt url user_agent timeout <$> seq from n.

(** The URLs of the [session.get] calls in a stretch of the wire log: each
    call shows once, by its first attempt. *)
Definition requests_made (tr : list Sent) : list string :=
  sent_url <$> filter (λ a, sent_try a = 0) tr.

(** The outcomes the configured policy answers with another attempt, while
    retries are left: a connection or read failure, a status of the
    forcelist, or a status urllib3 retries on request of a Retry-After
    header. *)
Definition retried_by_policy (retry : Retry) (o : Outcome) : Prop :=
  match o with
  | ConnectFailure | ReadFailure => True
  | Responded r =>
      status_code r ∈ status_forcelist retry
      ∨ (is_Some (retry_after r) ∧ status_code r ∈ RETRY_AFTER_STATUS_CODES)
  end.

(** The outcome of attempt [from + k] of a call that starts in [st]. *)
Definition outcome_at (env : Env) (url user_agent : string) (timeout : Z)
    (from : nat) (st : State) (k : nat) : Outcome :=
  net env (sent st ++ attempts url user_agent timeout from k)%list
      (attempt url user_agent timeout (from + k)%nat).

(** The pause urllib3 takes after the failure that brought the number of
    failures to [failures]: a positive Retry-After, the backoff otherwise. *)
Definition pause (retry : Retry) (failures : nat) (o : Outcome) : Z :=
  match o with
  | Responded r =>
      match retry_after r with
      | Some t => if (0 <? t)%Z then t else get_backoff_time retry failures
      | None => get_backoff_time retry failures
      end
  | _ => get_backoff_time retry failures
  end.

(** One run of the retry loop from attempt [from] on, with [total] retries
    left: it made [n + 1] attempts, [n ≤ total]; each attempt but the last
    met an outcome the policy retries; the last one is returned, or it used
    up the retries and the call raised; the positive pauses were slept. *)
Definition loop_run (env : Env) (retry : Retry) (url user_agent : string)
    (timeout : Z) (total from : nat) (st : State) (r : Res Response)
    (st' : State) : Prop :=
  ∃ n, (n ≤ total)%nat
    ∧ sent st' = (sent st ++ attempts url user_agent timeout from (S n))%list
    ∧ slept st'
      = (slept st
         ++ filter (λ t, 0 < t)%Z
              ((λ k, pause retry (S (from + k)%nat)
                           (outcome_at env url user_agent timeout from st k))
                 <$> seq 0 n))%list
    ∧ log_records st' = log_records st
    ∧ ∀ k, (k ≤ n)%nat →
        let o := outcome_at env url user_agent timeout from st k in
        ((k < n)%nat ↔ (k < total)%nat ∧ retried_by_policy retry o)
        ∧ (k = n →
           match r with
           | inr resp => o = Responded resp
           | inl e => is_RequestException e = true ∧ n = total
                      ∧ retried_by_policy retry o
           end).

(** The session built by [requests_retry_session()]. *)
Definition default_session : Session :=
  requests_retry_session default_retries default_backoff_factor
                         default_status_forcelist.

(** The reading of "a response with this status is retried before the fetch
    fails": whenever the first attempt of a call is answered with [status],
    a second attempt follows. *)
Definition retried_before_failing (status : Z) : Prop :=
  ∀ env url user_agent timeout st resp,
    (0 < timeout)%Z →
    status_code resp = status →
    net env (sent st) (attempt url user_agent timeout 0) = Responded resp →
    ∃ more,
      sent (session_get env default_session url user_agent timeout st).2
      = (sent st ++ attempt url user_agent timeout 0
                 :: attempt url user_agent timeout 1 :: more)%list.

(** [h] is a hostname extracted from the response [jsondata]: a trimmed
    line of the name field of one of its records. *)
Definition extracted_from (jsondata : json) (h : string) : Prop :=
  ∃ entries fields name_value line,
    jsondata = JArr entries
    ∧ JObj fields ∈ entries
    ∧ fields !! "name_value" = Some (JStr name_value)
    ∧ line ∈ PyStr.splitlines name_value
    ∧ h = PyStr.strip line.

(** [h] sits in the set its stars select. *)
Definition placed (h : string) (sets : Sets) : Prop :=
  if PyStr.contains "*" h then h ∈ wildcard_subdomains sets
  else h ∈ subdomains sets.

(** [jsondata] is a response fetched by the run of [process_subdomains] that
    starts in [st]: the response for the root domain, or, in recursive mode,
    the response for one wildcard of the snapshot taken after the root
    response was processed. *)
Definition fetched_by_run (env : Env) (domain : string) (recursive : bool)
    (verbose : bool) (user_agent : string) (timeout rate_limit : Z)
    (st : State) (jsondata : json) : Prop :=
  (∃ st1, fetch_subdomains env domain user_agent timeout verbose rate_limit st
          = (inr jsondata, st1))
  ∨ (recursive = true
     ∧ ∃ root st1 sets0 before w after sets_a st_a st_b,
         fetch_subdomains env domain user_agent timeout verbose rate_limit st
         = (inr root, st1)
         ∧ truthy root = true
         ∧ process_entries root empty_sets = inr sets0
         ∧ enumerate (set_order env) (wildcard_subdomains sets0)
           = (before ++ w :: after)%list
         ∧ expand_wildcards env user_agent timeout verbose rate_limit before
             sets0 st1
           = (inr sets_a, st_a)
         ∧ fetch_subdomains env (PyStr.replace "*" "%25" w) user_agent timeout
             verbose rate_limit st_a
           = (inr jsondata, st_b)).

(** The [if recursive:] block of [process_subdomains] as one step. *)
Definition recursive_step (env : Env) (recursive verbose : bool)
    (user_agent : string) (timeout rate_limit : Z) (sets : Sets) : M Sets :=
  if recursive
  then expand_wildcards env user_agent timeout verbose rate_limit
         (set_order env (wildcard_subdomains sets)) sets
  else ret sets.





(** The collected sets are classified when the concrete set holds no name
    with a star and the wildcard set only such names. *)
Definition classified (sets : Sets) : Prop :=
  (∀ h, h ∈ subdomains sets → PyStr.contains "*" h = false)
  ∧ (∀ h, h ∈ wildcard_subdomains sets → PyStr.contains "*" h = true).

(** [sets] is included in [sets'], set by set. *)
Definition sets_included (sets sets' : Sets) : Prop :=
  subdomains sets ⊆ subdomains sets'
  ∧ wildcard_subdomains sets ⊆ wildcard_subdomains sets'.

(** ** Vocabulary of the further properties *)

(** A response whose second record has [null] for name field. *)
Definition null_name_script : list (string * list Outcome) :=
  [ (BASE_URL "example.com",
     [ok_response (JArr [record "a.example.com";
                         JObj {[ "name_value" := JNull ]}])]) ].

(** A response that is an object, not a list. *)
Definition error_object_script : list (string * list Outcome) :=
  [ (BASE_URL "example.com",
     [ok_response (JObj {[ "error" := JStr "rate limited" ]})]) ].

(** The members of a set, last to first. *)
Definition reversed_order : SetOrder :=
  {| enumerate := λ X, reverse (elements X);
     enumerate_perm := λ X, reverse_Permutation (elements X) |}.

(** The scripted server with the set iterated the other way round. *)
Definition reversed_env (script : list (string * list Outcome)) : Env :=
  {| net := scripted script; set_order := reversed_order;
     can_open := λ _, true; exn_str := λ _, "error" |}.


(** No character of [s] is a line boundary of [str.splitlines]. *)
Definition no_linebreak (s : string) : Prop :=
  Forall (λ c, PyStr.islinebreak c = false) (String.list_ascii_of_string s).

(** [s.strip() == s] *)
Definition trimmed (s : string) : Prop := PyStr.strip s = s.

(** Every name of either set satisfies [P]. *)
Definition all_names (P : string → Prop) (sets : Sets) : Prop :=
  ∀ h, h ∈ subdomains sets ∨ h ∈ wildcard_subdomains sets → P h.

(** The state a fetch ends in after the request gave [rg] in [stg]. *)
Definition fetch_outcome (env : Env) (domain : string) (verbose : bool)
    (rate_limit : Z) (rg : Res Response) (stg : State) : Res json * State :=
  let failed e :=
    (inr (JArr []),
     record_log ERROR ("Error fetching data from CRT.SH: " ++ exn_str env e) stg) in
  match rg with
  | inl e => if is_RequestException e then failed e else (inl e, stg)
  | inr resp =>
      if ((400 <=? status_code resp) && (status_code resp <? 600))%Z
      then failed (RequestException (HTTPError (status_code resp)))
      else
        let st2 := if verbose
                   then record_log INFO ("Fetched data for " ++ domain) stg
                   else stg in
        if (rate_limit <? 0)%Z then (inl ValueError, st2)
        else
          let st3 := record_sleep rate_limit st2 in
          match body resp with
          | Some j => (inr j, st3)
          | None =>
              (inr (JArr []),
               record_log ERROR
                 ("Error fetching data from CRT.SH: "
                  ++ exn_str env (RequestException JSONDecodeError)) st3)
          end
  end.

(** The request ended in an exception or in a 4xx or 5xx response. *)
Definition request_failed (rg : Res Response) : Prop :=
  match rg with
  | inl _ => True
  | inr resp => (400 ≤ status_code resp < 600)%Z
  end.

(** A record the loops can read: an object whose name field is absent or a
    string. *)
Definition entry_ok (entry : json) : bool :=
  match entry with
  | JObj fields =>
      match fields !! "name_value" with
      | None | Some (JStr _) => true
      | Some _ => false
      end
  | _ => false
  end.

(** The computation [c] leaves the part [f] of the state as it was. *)
Definition keeps {A B} (f : State → B) (c : M A) : Prop :=
  ∀ st, f (c st).2 = f st.

(** [f] does not see requests, sleeps or log records. *)
Definition network_blind {B} (f : State → B) : Prop :=
  (∀ a st, f (record_sent a st) = f st)
  ∧ (∀ t st, f (record_sleep t st) = f st)
  ∧ (∀ l msg st, f (record_log l msg st) = f st).


(** The answers of [env]'s network are those of [n] on an empty history:
    what was requested before does not matter. *)
Definition answers_like (n : Network) (env : Env) : Prop :=
  ∀ history a, net env history a = n [] a.

(** Two results that are the same set, or both an exception. *)
Definition same_result {A} (r1 r2 : Res A) : Prop :=
  match r1, r2 with
  | inr a, inr b => a = b
  | inl _, inl _ => True
  | _, _ => False
  end.

(** The computation [c] only adds attempts that satisfy [P] to the wire. *)
Definition sends_only {A} (P : Sent → Prop) (c : M A) : Prop :=
  ∀ st, ∃ tr, sent (c st).2 = (sent st ++ tr)%list ∧ Forall P tr.

(** * Properties *)

Open Scope nat_scope.

(** ** The string methods on examples *)

Example strip_example : PyStr.strip "  a.example.com  " = "a.example.com".
Proof. reflexivity. Qed.

Example splitlines_example :
  PyStr.splitlines
    (String "a" (String PyStr.LF (String PyStr.LF
       (String "b" (String PyStr.CR (String PyStr.LF EmptyString))))))
  = ["a"; EmptyString; "b"].
Proof. reflexivity. Qed.

Example splitlines_empty : PyStr.splitlines EmptyString = [].
Proof. reflexivity. Qed.

Example split_example :
  PyStr.split "," "com, org,," = ["com"; " org"; EmptyString; EmptyString].
Proof. reflexivity. Qed.

Example replace_example :
  PyStr.replace "*" "%25" "*.a.*.com" = "%25.a.%25.com".
Proof. reflexivity. Qed.

Example endswith_example :
  PyStr.endswith "b.example.org" ".org" = true
  ∧ PyStr.endswith "b.example.org" ".com" = false.
Proof. by split. Qed.

Example sorted_example :
  PyStr.sorted ["b.com"; "a.com"; "*.com"; "a.co"; EmptyString]
  = [EmptyString; "*.com"; "a.co"; "a.com"; "b.com"].
Proof. reflexivity. Qed.

(** ** Strings *)

Lemma contains_In c s :
  PyStr.contains c s = true ↔ In c (String.list_ascii_of_string s).
Proof.
  induction s as [|x s IH]; simpl.
  - split; [discriminate | tauto].
  - rewrite orb_true_iff, IH, Ascii.eqb_eq. tauto.
Qed.

Lemma endswith_unfold s suffix :
  PyStr.endswith s suffix =
  String.eqb s suffix
  || match s with
     | EmptyString => false
     | String _ s' => PyStr.endswith s' suffix
     end.
Proof. by destruct s. Qed.

Lemma endswith_suffix s suffix :
  PyStr.endswith s suffix = true ↔ ∃ p, s = p ++ suffix.
Proof.
  induction s as [|x s IH]; rewrite endswith_unfold, orb_true_iff, String.eqb_eq.
  - split.
    + intros [<- | ?]; [by exists EmptyString | done].
    + intros [p Hp]. left. destruct p; simpl in Hp; [done | discriminate].
  - rewrite IH. split.
    + intros [<- | [p ->]]; [by exists EmptyString | by exists (String x p)].
    + intros [[|y p] Hp]; simpl in Hp; [by left | right].
      injection Hp as -> ->. by exists p.
Qed.

Lemma lstrip_whitespace s :
  Forall (λ c, PyStr.isspace c = true) (String.list_ascii_of_string s) →
  PyStr.lstrip s = EmptyString.
Proof.
  induction s as [|c s IH]; simpl; [done |].
  intros H. apply Forall_cons in H as [-> H]. auto.
Qed.

(** A line of white space only strips to the empty string. *)
Lemma strip_whitespace s :
  Forall (λ c, PyStr.isspace c = true) (String.list_ascii_of_string s) →
  PyStr.strip s = EmptyString.
Proof. intros H. unfold PyStr.strip. by rewrite lstrip_whitespace. Qed.

Lemma replace_removes c new s :
  PyStr.contains c new = false →
  PyStr.contains c (PyStr.replace c new s) = false.
Proof.
  intros Hnew. induction s as [|x s IH]; simpl; [done |].
  destruct (Ascii.eqb x c) eqn:E; simpl.
  - destruct (PyStr.contains c (new ++ PyStr.replace c new s)) eqn:C; [|done].
    apply contains_In in C.
    assert (∀ a b, String.list_ascii_of_string (a ++ b)
                   = String.list_ascii_of_string a ++ String.list_ascii_of_string b)%list
      as Happ.
    { intros a b. induction a as [|y a IHa]; simpl; [done | by rewrite IHa]. }
    rewrite Happ in C. apply in_app_or in C as [C | C].
    + apply contains_In in C. congruence.
    + apply contains_In in C. congruence.
  - by rewrite E, IH.
Qed.

(** ** Classification *)

Lemma add_subdomain_classified h sets :
  classified sets → classified (add_subdomain h sets).
Proof.
  intros [Hc Hw]. unfold add_subdomain.
  destruct (PyStr.contains "*" h) eqn:E; split; simpl; intros x Hx;
    try (apply elem_of_union in Hx as [->%elem_of_singleton | Hx]); auto.
Qed.

Lemma add_subdomain_included h sets : sets_included sets (add_subdomain h sets).
Proof.
  unfold sets_included, add_subdomain.
  destruct (PyStr.contains "*" h); simpl; set_solver.
Qed.

Lemma sets_included_refl sets : sets_included sets sets.
Proof. by split. Qed.

Lemma sets_included_trans a b c :
  sets_included a b → sets_included b c → sets_included a c.
Proof. intros [? ?] [? ?]. split; set_solver. Qed.

Lemma add_subnames_classified subnames sets :
  classified sets → classified (add_subnames subnames sets).
Proof.
  unfold add_subnames. revert sets.
  induction subnames as [|s subnames IH]; simpl; intros sets H; [done |].
  by apply IH, add_subdomain_classified.
Qed.

Lemma add_subnames_included subnames sets :
  sets_included sets (add_subnames subnames sets).
Proof.
  unfold add_subnames. revert sets.
  induction subnames as [|s subnames IH]; simpl; intros sets.
  - apply sets_included_refl.
  - eapply sets_included_trans; [apply add_subdomain_included | apply IH].
Qed.

(** Every subname ends up, stripped, in the set its stars select. *)
Lemma add_subnames_elem subnames sets line :
  line ∈ subnames →
  let h := PyStr.strip line in
  let sets' := add_subnames subnames sets in
  if PyStr.contains "*" h then h ∈ wildcard_subdomains sets'
  else h ∈ subdomains sets'.
Proof.
  unfold add_subnames. revert sets.
  induction subnames as [|s subnames IH]; simpl; intros sets Hin.
  - by apply elem_of_nil in Hin.
  - apply elem_of_cons in Hin as [-> | Hin]; [| by apply IH].
    pose proof (add_subnames_included subnames
                  (add_subdomain (PyStr.strip s) sets)) as [Hc Hw].
    unfold add_subnames in Hc, Hw. unfold add_subdomain in Hc, Hw |- *.
    destruct (PyStr.contains "*" (PyStr.strip s)) eqn:E; simpl in *; set_solver.
Qed.

Lemma add_entry_inv entry sets sets' :
  add_entry entry sets = inr sets' →
  ∃ fields subnames,
    entry = JObj fields
    ∧ json_splitlines (default (JStr EmptyString) (fields !! "name_value"))
      = inr subnames
    ∧ sets' = add_subnames subnames sets.
Proof.
  unfold add_entry. destruct entry; simpl; try discriminate.
  destruct (json_splitlines _) as [e | subnames] eqn:E; simpl; [discriminate |].
  intros [= <-]. eauto.
Qed.

Lemma add_entry_classified entry sets sets' :
  add_entry entry sets = inr sets' → classified sets → classified sets'.
Proof.
  intros (fields & subnames & -> & _ & ->)%add_entry_inv.
  apply add_subnames_classified.
Qed.

Lemma add_entry_included entry sets sets' :
  add_entry entry sets = inr sets' → sets_included sets sets'.
Proof.
  intros (fields & subnames & -> & _ & ->)%add_entry_inv.
  apply add_subnames_included.
Qed.

Lemma add_entries_cons_inv entry rest sets sets' :
  add_entries (entry :: rest) sets = inr sets' →
  ∃ mid, add_entry entry sets = inr mid ∧ add_entries rest mid = inr sets'.
Proof.
  simpl. destruct (add_entry entry sets) as [e | mid]; simpl; [discriminate |].
  eauto.
Qed.

Lemma add_entries_classified entries sets sets' :
  add_entries entries sets = inr sets' → classified sets → classified sets'.
Proof.
  revert sets. induction entries as [|entry rest IH]; intros sets.
  - by intros [= <-].
  - intros (mid & H1 & H2)%add_entries_cons_inv Hc.
    eapply IH; [done |]. by eapply add_entry_classified.
Qed.

Lemma add_entries_included entries sets sets' :
  add_entries entries sets = inr sets' → sets_included sets sets'.
Proof.
  revert sets. induction entries as [|entry rest IH]; intros sets.
  - intros [= <-]. apply sets_included_refl.
  - intros (mid & H1 & H2)%add_entries_cons_inv.
    eapply sets_included_trans; [by eapply add_entry_included | by apply IH].
Qed.

Lemma process_entries_inv jsondata sets sets' :
  process_entries jsondata sets = inr sets' →
  ∃ entries, iterate jsondata = inr entries
             ∧ add_entries entries sets = inr sets'.
Proof.
  unfold process_entries.
  destruct (iterate jsondata) as [e | entries]; simpl; [discriminate | eauto].
Qed.

Lemma process_entries_classified jsondata sets sets' :
  process_entries jsondata sets = inr sets' → classified sets → classified sets'.
Proof.
  intros (entries & _ & H)%process_entries_inv. by eapply add_entries_classified.
Qed.

Lemma process_entries_included jsondata sets sets' :
  process_entries jsondata sets = inr sets' → sets_included sets sets'.
Proof.
  intros (entries & _ & H)%process_entries_inv. by eapply add_entries_included.
Qed.

Lemma empty_sets_classified : classified empty_sets.
Proof. split; intros h Hh; simpl in Hh; set_solver. Qed.

(** C5. [add_subdomain] puts a hostname in the wildcard set exactly when it
    contains the character [*], in the concrete set exactly when it does
    not, and changes nothing else in either set. *)
Theorem add_subdomain_classifies (h : string) (sets : Sets) (x : string) :
  (x ∈ wildcard_subdomains (add_subdomain h sets)
     ↔ x ∈ wildcard_subdomains sets
       ∨ (x = h ∧ In "*"%char (String.list_ascii_of_string h)))
  ∧ (x ∈ subdomains (add_subdomain h sets)
     ↔ x ∈ subdomains sets
       ∨ (x = h ∧ ¬ In "*"%char (String.list_ascii_of_string h))).
Proof.
  unfold add_subdomain.
  destruct (PyStr.contains "*" h) eqn:E; simpl.
  - apply contains_In in E. set_solver.
  - assert (¬ In "*"%char (String.list_ascii_of_string h)) as N.
    { rewrite <- contains_In. congruence. }
    set_solver.
Qed.

(** ** The wildcard policy *)

(** C2. On classified (collected) sets [C], [W]: with [exclude_wildcards]
    the merge yields [C], without any member of [W], whatever [wildcard]
    is; [wildcard] alone yields [C ∪ W]; neither flag yields [C]. *)
Theorem merge_wildcards_policy (sets : Sets) :
  classified sets →
  (∀ wildcard, merge_wildcards wildcard true sets = subdomains sets)
  ∧ (∀ wildcard h, h ∈ merge_wildcards wildcard true sets →
                   h ∉ wildcard_subdomains sets)
  ∧ merge_wildcards true false sets
    = subdomains sets ∪ wildcard_subdomains sets
  ∧ merge_wildcards false false sets = subdomains sets.
Proof.
  intros [Hc Hw].
  assert (subdomains sets ## wildcard_subdomains sets) as Hdisj.
  { intros h H1 H2. specialize (Hc h H1). specialize (Hw h H2). congruence. }
  unfold merge_wildcards. repeat split.
  - intros []; set_solver.
  - intros []; set_solver.
Qed.

Lemma merge_wildcards_policy_witness :
  let sets := add_subnames ["a.example.com"; "*.example.com"] empty_sets in
  classified sets
  ∧ merge_wildcards true true sets = subdomains sets
  ∧ merge_wildcards true false sets
    = subdomains sets ∪ wildcard_subdomains sets.
Proof.
  intros sets.
  assert (classified sets) as H
    by apply add_subnames_classified, empty_sets_classified.
  split; [exact H |].
  destruct (merge_wildcards_policy sets H) as (H1 & _ & H2 & _).
  split; [apply H1 | exact H2].
Defined.

(** ** Records without a name field *)

Lemma add_entries_app before after sets :
  add_entries (before ++ after) sets
  = res_bind (add_entries before sets) (add_entries after).
Proof.
  revert sets. induction before as [|entry before IH]; intros sets; simpl.
  - done.
  - destruct (add_entry entry sets) as [e | mid]; simpl; [done | apply IH].
Qed.

(** C10. A record without [name_value] reads as the empty string, which has
    no lines: the record adds nothing and raises nothing, and the records
    around it are processed as if it were not there. *)
Theorem missing_name_value_ignored (fields : gmap string json) :
  fields !! "name_value" = None →
  get_name_value (JObj fields) = inr (JStr EmptyString)
  ∧ json_splitlines (JStr EmptyString) = inr []
  ∧ (∀ sets, add_entry (JObj fields) sets = inr sets)
  ∧ (∀ before after sets,
       process_entries (JArr (before ++ JObj fields :: after)) sets
       = process_entries (JArr (before ++ after)) sets).
Proof.
  intros Hnone.
  assert (∀ sets, add_entry (JObj fields) sets = inr sets) as Hentry.
  { intros sets. unfold add_entry. simpl. by rewrite Hnone. }
  repeat split.
  - simpl. by rewrite Hnone.
  - exact Hentry.
  - intros before after sets. unfold process_entries. simpl.
    rewrite !add_entries_app.
    destruct (add_entries before sets) as [e | mid]; simpl; [done |].
    by rewrite Hentry.
Qed.

Lemma missing_name_value_ignored_witness :
  let fields : gmap string json := {[ "issuer_name" := JStr "C=US" ]} in
  fields !! "name_value" = None
  ∧ ∀ sets, add_entry (JObj fields) sets = inr sets.
Proof.
  intros fields.
  assert (fields !! "name_value" = None) as H by reflexivity.
  split; [exact H |].
  apply (missing_name_value_ignored fields H).
Defined.

(** ** The retry loop *)



Lemma attempts_S url user_agent timeout from n :
  attempts url user_agent timeout from (S n)
  = attempt url user_agent timeout from
    :: attempts url user_agent timeout (S from) n.
Proof. reflexivity. Qed.

Lemma attempts_0 url user_agent timeout from :
  attempts url user_agent timeout from 0 = [].
Proof. reflexivity. Qed.

Lemma is_retry_policy retry total status (ra : option Z) :
  is_retry retry (S total) status (bool_decide (is_Some ra)) = true
  ↔ status ∈ status_forcelist retry
    ∨ (is_Some ra ∧ status ∈ RETRY_AFTER_STATUS_CODES).
Proof.
  unfold is_retry. simpl.
  rewrite orb_true_iff, andb_true_iff, !bool_decide_eq_true. tauto.
Qed.

Lemma is_retry_exhausted retry status (ra : bool) :
  is_retry retry 0 status ra = true ↔ status ∈ status_forcelist retry.
Proof.
  unfold is_retry. simpl. by rewrite orb_false_r, bool_decide_eq_true.
Qed.

Lemma state_sleep_backoff retry failures st :
  let st' := sleep_backoff retry failures st in
  sent st' = sent st ∧ log_records st' = log_records st
  ∧ slept st' = (slept st ++ filter (λ t, 0 < t)%Z [get_backoff_time retry failures])%list.
Proof.
  unfold sleep_backoff. cbv zeta.
  destruct (0 <? get_backoff_time retry failures)%Z eqn:E; repeat split.
  - rewrite filter_cons_True by (by apply Z.ltb_lt). done.
  - rewrite filter_cons_False by (by apply Z.ltb_nlt). by rewrite app_nil_r.
Qed.

Lemma state_sleep_response retry failures r st :
  let st' := sleep_response retry failures r st in
  sent st' = sent st ∧ log_records st' = log_records st
  ∧ slept st' = (slept st ++ filter (λ t, 0 < t)%Z [pause retry failures (Responded r)])%list.
Proof.
  unfold sleep_response, pause. cbv zeta.
  destruct (retry_after r) as [t|]; [| apply state_sleep_backoff].
  destruct (0 <? t)%Z eqn:E; [| apply state_sleep_backoff].
  repeat split. rewrite filter_cons_True by (by apply Z.ltb_lt). done.
Qed.

Lemma outcome_at_0 env url user_agent timeout from st :
  outcome_at env url user_agent timeout from st 0
  = net env (sent st) (attempt url user_agent timeout from).
Proof. unfold outcome_at. by rewrite attempts_0, app_nil_r, Nat.add_0_r. Qed.

Lemma outcome_at_S env url user_agent timeout from st st1 k :
  sent st1 = (sent st ++ [attempt url user_agent timeout from])%list →
  outcome_at env url user_agent timeout (S from) st1 k
  = outcome_at env url user_agent timeout from st (S k).
Proof.
  intros Hst1. unfold outcome_at.
  rewrite Hst1, <- app_assoc, (attempts_S _ _ _ from).
  by replace (from + S k) with (S from + k) by lia.
Qed.

Lemma urlopen_unfold env retry url user_agent timeout total read connect tries st :
  urlopen env retry url user_agent timeout total read connect tries st =
  let a := attempt url user_agent timeout tries in
  let st1 := record_sent a st in
  match net env (sent st) a with
  | ConnectFailure =>
      match total, connect with
      | S total', S connect' =>
          urlopen env retry url user_agent timeout total' read connect' (S tries)
                  (sleep_backoff retry (S tries) st1)
      | _, _ => (inl (RequestException ConnectionError), st1)
      end
  | ReadFailure =>
      match total, read with
      | S total', S read' =>
          urlopen env retry url user_agent timeout total' read' connect (S tries)
                  (sleep_backoff retry (S tries) st1)
      | _, _ => (inl (RequestException ConnectionError), st1)
      end
  | Responded r =>
      if is_retry retry total (status_code r) (bool_decide (is_Some (retry_after r)))
      then match total with
           | S total' =>
               urlopen env retry url user_agent timeout total' read connect (S tries)
                       (sleep_response retry (S tries) r st1)
           | O => (inl (RequestException RetryError), st1)
           end
      else (inr r, st1)
  end.
Proof. by destruct total. Qed.


Lemma loop_run_last env retry url user_agent timeout total tries st r st' :
  sent st' = (sent st ++ [attempt url user_agent timeout tries])%list →
  slept st' = slept st → log_records st' = log_records st →
  (0 < total → ¬ retried_by_policy retry
     (net env (sent st) (attempt url user_agent timeout tries))) →
  match r with
  | inr resp => net env (sent st) (attempt url user_agent timeout tries)
                = Responded resp
  | inl e => is_RequestException e = true ∧ total = 0
             ∧ retried_by_policy retry
                 (net env (sent st) (attempt url user_agent timeout tries))
  end →
  loop_run env retry url user_agent timeout total tries st r st'.
Proof.
  intros Hsent Hslept Hlog Hnot Hres. exists 0. split; [lia |].
  split; [done |]. split; [by rewrite Hslept, app_nil_r |]. split; [done |].
  intros k Hk. assert (k = 0) as -> by lia.
  rewrite outcome_at_0. cbv zeta. split.
  - split; [lia |]. intros [Hlt Hp]. by destruct (Hnot Hlt).
  - intros _. destruct r as [e | resp]; [| done].
    destruct Hres as (? & -> & ?). done.
Qed.

Lemma loop_run_step env retry url user_agent timeout total tries st st1 r st' :
  sent st1 = (sent st ++ [attempt url user_agent timeout tries])%list →
  slept st1
  = (slept st
     ++ filter (λ t, 0 < t)%Z
          [pause retry (S tries)
             (net env (sent st) (attempt url user_agent timeout tries))])%list →
  log_records st1 = log_records st →
  retried_by_policy retry
    (net env (sent st) (attempt url user_agent timeout tries)) →
  loop_run env retry url user_agent timeout total (S tries) st1 r st' →
  loop_run env retry url user_agent timeout (S total) tries st r st'.
Proof.
  intros Hst1 Hsl1 Hlog1 Hretried (n & Hn & Hsent & Hslept & Hlog & Hall).
  exists (S n). split; [lia |]. split.
  { by rewrite Hsent, Hst1, <- app_assoc, (attempts_S _ _ _ tries). }
  split.
  { rewrite Hslept, Hsl1, <- app_assoc. f_equal.
    rewrite <- cons_seq, fmap_cons, <- fmap_S_seq, <- list_fmap_compose.
    rewrite outcome_at_0, Nat.add_0_r.
    change (?x :: ?l) with ([x] ++ l)%list at 2. rewrite filter_app. f_equal.
    f_equal. apply list_fmap_ext. intros i k _. simpl.
    rewrite (outcome_at_S _ _ _ _ _ st) by done.
    by replace (tries + S k) with (S (tries + k)) by lia. }
  split; [congruence |].
  intros [|k] Hk.
  - rewrite outcome_at_0. cbv zeta.
    split; [split; [intros _; split; [lia | done] | lia] | lia].
  - specialize (Hall k ltac:(lia)). cbv zeta in Hall |- *.
    rewrite (outcome_at_S _ _ _ _ _ st) in Hall by done.
    destruct Hall as [Hlt Hlast]. split.
    + rewrite <- !Nat.succ_lt_mono. exact Hlt.
    + intros [= ->]. specialize (Hlast eq_refl).
      destruct r as [e | resp]; [| exact Hlast].
      destruct Hlast as (? & -> & ?). by repeat split.
Qed.

Lemma urlopen_run env retry url user_agent timeout (total : nat) :
  ∀ (read connect tries : nat) st r st',
    total ≤ read → total ≤ connect →
    urlopen env retry url user_agent timeout total read connect tries st
    = (r, st') →
    loop_run env retry url user_agent timeout total tries st r st'.
Proof.
  induction total as [|total IH]; intros read connect tries st r st' Hr Hc;
    rewrite urlopen_unfold; cbv zeta;
    destruct (net env (sent st) (attempt url user_agent timeout tries))
      as [| | resp] eqn:Ho.
  - intros [= <- <-]. apply loop_run_last; rewrite ?Ho; [done.. | lia | done].
  - intros [= <- <-]. apply loop_run_last; rewrite ?Ho; [done.. | lia | done].
  - destruct (is_retry retry 0 _ _) eqn:Hretry; intros [= <- <-];
      apply loop_run_last; rewrite ?Ho; try done; try lia.
    apply is_retry_exhausted in Hretry. repeat split. by left.
  - destruct connect as [|connect']; [lia |]. intros Hrun.
    destruct (state_sleep_backoff retry (S tries)
                (record_sent (attempt url user_agent timeout tries) st))
      as (H1 & H2 & H3).
    eapply loop_run_step;
      [exact H1 | by rewrite Ho | exact H2 | by rewrite Ho
      | eapply IH; [| | exact Hrun]; lia].
  - destruct read as [|read']; [lia |]. intros Hrun.
    destruct (state_sleep_backoff retry (S tries)
                (record_sent (attempt url user_agent timeout tries) st))
      as (H1 & H2 & H3).
    eapply loop_run_step;
      [exact H1 | by rewrite Ho | exact H2 | by rewrite Ho
      | eapply IH; [| | exact Hrun]; lia].
  - destruct (is_retry retry (S total) _ _) eqn:Hretry.
    + apply is_retry_policy in Hretry. intros Hrun.
      destruct (state_sleep_response retry (S tries) resp
                  (record_sent (attempt url user_agent timeout tries) st))
        as (H1 & H2 & H3).
      eapply loop_run_step;
        [exact H1 | by rewrite Ho | exact H2 | by rewrite Ho
        | eapply IH; [| | exact Hrun]; lia].
    + intros [= <- <-]. apply loop_run_last; rewrite ?Ho; try done.
      intros _ Hp. simpl in Hp. rewrite <- (is_retry_policy retry total) in Hp.
      congruence.
Qed.

Lemma session_get_run env url user_agent timeout st r st' :
  (0 < timeout)%Z →
  session_get env default_session url user_agent timeout st = (r, st') →
  loop_run env (max_retries default_session) url user_agent timeout 3 0 st r st'.
Proof.
  intros Ht. unfold session_get.
  destruct (timeout <=? 0)%Z eqn:E; [apply Z.leb_le in E; lia |].
  apply urlopen_run; cbv; lia.
Qed.





(** The statuses of the forcelist are each answered with a second attempt. *)
Lemma forcelist_statuses_retried status :
  status ∈ [500; 502; 504]%Z → retried_before_failing status.
Proof.
  intros Hs env url user_agent timeout st resp Ht Hst Ho.
  destruct (session_get env default_session url user_agent timeout st)
    as [r st'] eqn:Hrun.
  destruct (session_get_run _ _ _ _ _ _ _ Ht Hrun)
    as (n & Hn & Hsent & _ & _ & Hall).
  destruct (Hall 0 ltac:(lia)) as [[_ Hlt] _].
  rewrite outcome_at_0, Ho in Hlt. simpl in Hlt.
  destruct n as [|n]; [exfalso |].
  - assert (0 < 0) by (apply Hlt; split; [lia | left; by rewrite Hst]). lia.
  - simpl. rewrite Hsent. eexists. reflexivity.
Qed.

(** ** Fetching and collecting *)

Lemma bind_unfold {A B} (c : M A) (k : A → M B) st :
  bind c k st
  = match c st with
    | (inl e, st') => (inl e, st')
    | (inr a, st') => k a st'
    end.
Proof. reflexivity. Qed.

(** What [fetch_subdomains] returns, case by case. *)
Lemma fetch_subdomains_run env domain user_agent timeout verbose rate_limit
    st r st' :
  fetch_subdomains env domain user_agent timeout verbose rate_limit st
  = (r, st') →
  ((timeout ≤ 0)%Z ∧ r = inl ValueError ∧ st' = st)
  ∨ ((0 < timeout)%Z
     ∧ ∃ rg stg,
         session_get env default_session (BASE_URL domain) user_agent timeout st
         = (rg, stg)
         ∧ sent st' = sent stg
         ∧ match rg with
           | inl e => r = inr (JArr [])
           | inr resp =>
               if ((400 <=? status_code resp) && (status_code resp <? 600))%Z
               then r = inr (JArr [])
               else if (rate_limit <? 0)%Z then r = inl ValueError
                    else r = inr (default (JArr []) (body resp))
           end).
Proof.
  unfold fetch_subdomains. fold default_session.
  unfold try_except. rewrite bind_unfold.
  destruct (Z.leb_spec timeout 0) as [Ht | Ht].
  - unfold session_get at 1.
    destruct (timeout <=? 0)%Z eqn:E; [| apply Z.leb_gt in E; lia].
    simpl. intros [= <- <-]. by left.
  - destruct (session_get env default_session (BASE_URL domain) user_agent
                timeout st) as [rg stg] eqn:Hget.
    intros Hrun. right. split; [done |].
    exists rg, stg. split; [done |].
    pose proof (session_get_run _ _ _ _ _ _ _ Ht Hget)
      as (n & _ & _ & _ & _ & Hall).
    destruct rg as [e | resp].
    + destruct (Hall n ltac:(lia)) as [_ Hlast].
      destruct (Hlast eq_refl) as (He & _). rewrite He in Hrun. simpl in Hrun.
      by injection Hrun as <- <-.
    + revert Hrun. unfold raise_for_status.
      destruct ((400 <=? status_code resp) && (status_code resp <? 600))%Z;
        simpl.
      * by intros [= <- <-].
      * unfold time_sleep, response_json, logging_info, bind, ret, raise.
        destruct verbose, (rate_limit <? 0)%Z, (body resp) as [j|]; simpl;
          by intros [= <- <-].
Qed.

Lemma attempts_later_tries url user_agent timeout from n :
  filter (λ a, sent_try a = 0) (attempts url user_agent timeout (S from) n) = [].
Proof.
  revert from. induction n as [|n IH]; intros from; [done |].
  rewrite attempts_S, filter_cons_False by (simpl; lia). apply IH.
Qed.

Lemma requests_made_attempts url user_agent timeout n :
  requests_made (attempts url user_agent timeout 0 (S n)) = [url].
Proof.
  unfold requests_made.
  rewrite attempts_S, filter_cons_True by done.
  by rewrite attempts_later_tries.
Qed.

Lemma requests_made_app tr1 tr2 :
  requests_made (tr1 ++ tr2) = (requests_made tr1 ++ requests_made tr2)%list.
Proof. unfold requests_made. by rewrite filter_app, fmap_app. Qed.

(** A fetch that returns has made one request, for its own URL. *)
Lemma fetch_subdomains_sent env domain user_agent timeout verbose rate_limit
    st jsondata st' :
  fetch_subdomains env domain user_agent timeout verbose rate_limit st
  = (inr jsondata, st') →
  ∃ tr, sent st' = (sent st ++ tr)%list
        ∧ requests_made tr = [BASE_URL domain].
Proof.
  intros [(_ & [=] & _) | (Ht & rg & stg & Hget & Hsent & _)]%fetch_subdomains_run.
  destruct (session_get_run _ _ _ _ _ _ _ Ht Hget) as (n & _ & Hstg & _).
  eexists. split; [by rewrite Hsent, Hstg |]. apply requests_made_attempts.
Qed.

Lemma process_subdomains_unfold env domain recursive wildcard exclude_wildcards
    verbose user_agent timeout rate_limit extensions st :
  process_subdomains env domain recursive wildcard exclude_wildcards verbose
    user_agent timeout rate_limit extensions st
  = match fetch_subdomains env domain user_agent timeout verbose rate_limit st with
    | (inl e, st1) => (inl e, st1)
    | (inr jsondata, st1) =>
        if truthy jsondata then
          match process_entries jsondata empty_sets with
          | inl e => (inl e, st1)
          | inr sets0 =>
              match
                recursive_step env recursive verbose user_agent timeout
                  rate_limit sets0 st1
              with
              | (inl e, st2) => (inl e, st2)
              | (inr sets, st2) =>
                  (inr (filter_extensions extensions
                          (merge_wildcards wildcard exclude_wildcards sets)),
                   st2)
              end
          end
        else (inr ∅, st1)
    end.
Proof.
  unfold process_subdomains. rewrite bind_unfold.
  destruct (fetch_subdomains _ _ _ _ _ _ _) as [[e | jsondata] st1]; [done |].
  destruct (truthy jsondata); simpl; [| done].
  rewrite bind_unfold. unfold lift.
  destruct (process_entries jsondata empty_sets) as [e | sets0]; [done |].
  rewrite bind_unfold. fold (recursive_step env recursive verbose user_agent
                              timeout rate_limit sets0).
  by destruct (recursive_step _ _ _ _ _ _ _ _) as [[e | sets] st2].
Qed.

Lemma expand_wildcard_unfold env user_agent timeout verbose rate_limit w sets st :
  expand_wildcard env user_agent timeout verbose rate_limit w sets st
  = match fetch_subdomains env (PyStr.replace "*" "%25" w) user_agent timeout
            verbose rate_limit st with
    | (inl e, st1) => (inl e, st1)
    | (inr jsondata, st1) =>
        if truthy jsondata then (process_entries jsondata sets, st1)
        else (inr sets, st1)
    end.
Proof.
  unfold expand_wildcard. rewrite bind_unfold.
  destruct (fetch_subdomains _ _ _ _ _ _ _) as [[e | jsondata] st1]; [done |].
  by destruct (truthy jsondata).
Qed.

Lemma expand_wildcards_app env user_agent timeout verbose rate_limit
    before after sets st :
  expand_wildcards env user_agent timeout verbose rate_limit (before ++ after)
    sets st
  = bind (expand_wildcards env user_agent timeout verbose rate_limit before sets)
         (expand_wildcards env user_agent timeout verbose rate_limit after) st.
Proof.
  revert sets st. induction before as [|w before IH]; intros sets st.
  - done.
  - simpl. rewrite !bind_unfold.
    destruct (expand_wildcard _ _ _ _ _ _ _ _) as [[e | sets1] st1]; [done |].
    rewrite IH. by rewrite bind_unfold.
Qed.

(** One expansion: the query is the encoded wildcard, the sets only grow,
    and stay classified. *)
Lemma expand_wildcard_run env user_agent timeout verbose rate_limit w sets st
    sets' st' :
  expand_wildcard env user_agent timeout verbose rate_limit w sets st
  = (inr sets', st') →
  sets_included sets sets'
  ∧ (classified sets → classified sets')
  ∧ ∃ tr, sent st' = (sent st ++ tr)%list
          ∧ requests_made tr = [BASE_URL (PyStr.replace "*" "%25" w)].
Proof.
  rewrite expand_wildcard_unfold.
  destruct (fetch_subdomains _ _ _ _ _ _ _) as [[e | jsondata] st1] eqn:Hf;
    [discriminate |].
  apply fetch_subdomains_sent in Hf.
  destruct (truthy jsondata); intros [= H <-].
  - split; [by eapply process_entries_included |].
    split; [by eapply process_entries_classified | done].
  - subst. split; [apply sets_included_refl | done].
Qed.

Lemma expand_wildcards_run env user_agent timeout verbose rate_limit snapshot :
  ∀ sets st sets' st',
    expand_wildcards env user_agent timeout verbose rate_limit snapshot sets st
    = (inr sets', st') →
    sets_included sets sets'
    ∧ (classified sets → classified sets')
    ∧ ∃ tr, sent st' = (sent st ++ tr)%list
            ∧ requests_made tr
              = (λ w, BASE_URL (PyStr.replace "*" "%25" w)) <$> snapshot.
Proof.
  induction snapshot as [|w snapshot IH]; intros sets st sets' st'.
  - intros [= <- <-]. split; [apply sets_included_refl |]. split; [done |].
    exists []. by rewrite app_nil_r.
  - simpl. rewrite bind_unfold.
    destruct (expand_wildcard _ _ _ _ _ _ _ _) as [[e | sets1] st1] eqn:H1;
      [discriminate |].
    intros H2.
    apply expand_wildcard_run in H1 as (Hi1 & Hc1 & tr1 & Hs1 & Hr1).
    apply IH in H2 as (Hi2 & Hc2 & tr2 & Hs2 & Hr2).
    split; [by eapply sets_included_trans |]. split; [auto |].
    exists (tr1 ++ tr2)%list. split.
    + by rewrite Hs2, Hs1, app_assoc.
    + by rewrite requests_made_app, Hr1, Hr2.
Qed.

(** ** A failed root fetch *)




(** ** The extension filter *)

Lemma matches_extension_spec exts h :
  matches_extension exts h = true
  ↔ ∃ ext p, ext ∈ PyStr.split "," exts
             ∧ h = (p ++ "." ++ PyStr.strip ext)%string.
Proof.
  unfold matches_extension. rewrite existsb_exists. split.
  - intros (ext & Hin & (p & ->)%endswith_suffix).
    exists ext, p. by rewrite list_elem_of_In.
  - intros (ext & p & Hin & ->). exists ext. split; [by apply list_elem_of_In |].
    apply endswith_suffix. by exists p.
Qed.

Lemma filter_extensions_empty extensions : filter_extensions extensions ∅ = ∅.
Proof.
  destruct extensions as [exts|]; simpl; [| done].
  destruct (PyStr.truthy exts); [| done].
  apply set_eq. intros x. rewrite elem_of_filter. set_solver.
Qed.

(** A run with a filter is the run without it, filtered at the end. *)
Lemma process_subdomains_extensions env domain recursive wildcard
    exclude_wildcards verbose user_agent timeout rate_limit extensions st :
  process_subdomains env domain recursive wildcard exclude_wildcards verbose
    user_agent timeout rate_limit extensions st
  = match process_subdomains env domain recursive wildcard exclude_wildcards
            verbose user_agent timeout rate_limit None st with
    | (inr s, st') => (inr (filter_extensions extensions s), st')
    | r => r
    end.
Proof.
  rewrite !process_subdomains_unfold.
  destruct (fetch_subdomains _ _ _ _ _ _ _) as [[e | jsondata] st1]; [done |].
  destruct (truthy jsondata); [| by rewrite filter_extensions_empty].
  destruct (process_entries jsondata empty_sets) as [e | sets0]; [done |].
  by destruct (recursive_step _ _ _ _ _ _ _ _) as [[e | sets] st2].
Qed.

(** C4. A run with an extension list returns the hostnames the run without
    one returns, restricted, when the list is not empty, to those that end
    with a dot followed by one of the comma-separated entries, trimmed; all
    others are dropped.  Without a list the result is unchanged. *)
Theorem extension_filter env domain recursive wildcard exclude_wildcards
    verbose user_agent timeout rate_limit (extensions : option string)
    (s : gset string) st st' :
  process_subdomains env domain recursive wildcard exclude_wildcards verbose
    user_agent timeout rate_limit extensions st
  = (inr s, st') →
  ∃ collected,
    process_subdomains env domain recursive wildcard exclude_wildcards verbose
      user_agent timeout rate_limit None st
    = (inr collected, st')
    ∧ match extensions with
      | Some (String c rest) =>
          ∀ h, h ∈ s ↔
               h ∈ collected
               ∧ ∃ ext p, ext ∈ PyStr.split "," (String c rest)
                          ∧ h = (p ++ "." ++ PyStr.strip ext)%string
      | _ => s = collected
      end.
Proof.
  rewrite process_subdomains_extensions.
  destruct (process_subdomains _ _ _ _ _ _ _ _ _ None st)
    as [[e | collected] st1]; [discriminate |].
  intros [= <- <-]. exists collected. split; [done |].
  destruct extensions as [[|c rest]|]; [done | | done].
  intros h. simpl. rewrite elem_of_filter, matches_extension_spec. tauto.
Qed.

Lemma extension_filter_witness :
  let env := test_env extension_script in
  ∃ st',
    process_subdomains env "example.com" false false false false "Mozilla/5.0"
      25000 0 (Some "org") initial_state
    = (inr {["b.example.org"]}, st')
    ∧ ∃ collected,
        process_subdomains env "example.com" false false false false
          "Mozilla/5.0" 25000 0 None initial_state
        = (inr collected, st')
        ∧ ∀ h, h ∈ ({["b.example.org"]} : gset string) ↔
               h ∈ collected
               ∧ ∃ ext p, ext ∈ PyStr.split "," "org"
                          ∧ h = (p ++ "." ++ PyStr.strip ext)%string.
Proof.
  intros env. eexists. split; [by vm_compute |].
  apply (extension_filter env "example.com" false false false false
           "Mozilla/5.0" 25000%Z 0%Z (Some "org")).
  by vm_compute.
Defined.

(** ** What a run collects *)

Lemma placed_included h sets sets' :
  sets_included sets sets' → placed h sets → placed h sets'.
Proof.
  intros [Hc Hw]. unfold placed. destruct (PyStr.contains "*" h); set_solver.
Qed.

Lemma add_entries_extracted entries sets sets' fields name_value line :
  add_entries entries sets = inr sets' →
  JObj fields ∈ entries →
  fields !! "name_value" = Some (JStr name_value) →
  line ∈ PyStr.splitlines name_value →
  placed (PyStr.strip line) sets'.
Proof.
  revert sets. induction entries as [|entry rest IH]; intros sets Hrun Hin Hnv Hl.
  - by apply elem_of_nil in Hin.
  - apply add_entries_cons_inv in Hrun as (mid & H1 & H2).
    apply elem_of_cons in Hin as [<- | Hin]; [| by eapply IH].
    apply add_entry_inv in H1 as (fields' & subnames & [= <-] & Hs & ->).
    rewrite Hnv in Hs. injection Hs as <-.
    eapply placed_included; [by eapply add_entries_included |].
    by apply add_subnames_elem.
Qed.

Lemma process_entries_extracted jsondata sets sets' h :
  process_entries jsondata sets = inr sets' →
  extracted_from jsondata h →
  placed h sets'.
Proof.
  intros Hrun (entries & fields & nv & line & -> & Hin & Hnv & Hl & ->).
  unfold process_entries in Hrun. simpl in Hrun.
  by eapply add_entries_extracted.
Qed.

Lemma extracted_from_truthy jsondata h :
  extracted_from jsondata h → truthy jsondata = true.
Proof.
  intros (entries & fields & nv & line & -> & Hin & _).
  destruct entries; [by apply elem_of_nil in Hin | done].
Qed.

(** A run over a non-empty root response: the sets it collects. *)
Lemma run_sets env domain recursive wildcard exclude_wildcards verbose
    user_agent timeout rate_limit extensions st s st2 root st1 :
  process_subdomains env domain recursive wildcard exclude_wildcards verbose
    user_agent timeout rate_limit extensions st
  = (inr s, st2) →
  fetch_subdomains env domain user_agent timeout verbose rate_limit st
  = (inr root, st1) →
  truthy root = true →
  ∃ sets0 sets,
    process_entries root empty_sets = inr sets0
    ∧ recursive_step env recursive verbose user_agent timeout rate_limit
        sets0 st1
      = (inr sets, st2)
    ∧ s = filter_extensions extensions
            (merge_wildcards wildcard exclude_wildcards sets).
Proof.
  rewrite process_subdomains_unfold. intros Hrun Hf Ht.
  rewrite Hf, Ht in Hrun.
  destruct (process_entries root empty_sets) as [e | sets0] eqn:Hp;
    [discriminate |].
  destruct (recursive_step _ _ _ _ _ _ _ _) as [[e | sets] st2'] eqn:Hexp;
    [discriminate |].
  injection Hrun as <- <-. by exists sets0, sets.
Qed.

Lemma recursive_step_run env recursive verbose user_agent timeout rate_limit
    sets0 st1 sets st2 :
  recursive_step env recursive verbose user_agent timeout rate_limit sets0 st1
  = (inr sets, st2) →
  sets_included sets0 sets ∧ (classified sets0 → classified sets).
Proof.
  unfold recursive_step. destruct recursive.
  - intros (? & ? & _)%expand_wildcards_run. auto.
  - intros [= <- <-]. split; [apply sets_included_refl | done].
Qed.

(** The sets a run hands to the wildcard policy are classified. *)
Lemma collected_classified env recursive verbose user_agent timeout rate_limit
    root sets0 st1 sets st2 :
  process_entries root empty_sets = inr sets0 →
  recursive_step env recursive verbose user_agent timeout rate_limit sets0 st1
  = (inr sets, st2) →
  classified sets.
Proof.
  intros Hp [_ Hcl]%recursive_step_run. apply Hcl.
  by eapply process_entries_classified, empty_sets_classified.
Qed.

(** Every hostname extracted from a fetched response is placed in the
    collected sets. *)
Lemma fetched_placed env domain recursive verbose user_agent timeout rate_limit
    st root st1 sets0 sets st2 jsondata h :
  fetch_subdomains env domain user_agent timeout verbose rate_limit st
  = (inr root, st1) →
  process_entries root empty_sets = inr sets0 →
  recursive_step env recursive verbose user_agent timeout rate_limit sets0 st1
  = (inr sets, st2) →
  fetched_by_run env domain recursive verbose user_agent timeout rate_limit st
    jsondata →
  extracted_from jsondata h →
  placed h sets.
Proof.
  intros Hf Hp Hexp Hfetched Hex.
  destruct (recursive_step_run _ _ _ _ _ _ _ _ _ _ Hexp) as [Hincl _].
  destruct Hfetched as [[st1' Hf'] | (-> & root' & st1' & sets0' & before & w
                                       & after & sets_a & st_a & st_b
                                       & Hf' & _ & Hp' & Hsnap & Hbefore & Hw)].
  - rewrite Hf in Hf'. injection Hf' as <- <-.
    eapply placed_included; [exact Hincl |].
    by eapply process_entries_extracted.
  - rewrite Hf in Hf'. injection Hf' as <- <-.
    rewrite Hp in Hp'. injection Hp' as <-.
    unfold recursive_step in Hexp.
    rewrite Hsnap, expand_wildcards_app, bind_unfold, Hbefore in Hexp.
    simpl in Hexp. rewrite bind_unfold, expand_wildcard_unfold, Hw in Hexp.
    rewrite (extracted_from_truthy _ _ Hex) in Hexp.
    destruct (process_entries jsondata sets_a) as [e | sets_b] eqn:Hb;
      [discriminate |].
    apply expand_wildcards_run in Hexp as (Hi & _).
    eapply placed_included; [exact Hi |].
    by eapply process_entries_extracted.
Qed.

Lemma fetched_by_run_root env domain recursive verbose user_agent timeout
    rate_limit st jsondata h :
  fetched_by_run env domain recursive verbose user_agent timeout rate_limit st
    jsondata →
  extracted_from jsondata h →
  ∃ root st1,
    fetch_subdomains env domain user_agent timeout verbose rate_limit st
    = (inr root, st1)
    ∧ truthy root = true.
Proof.
  intros [[st1 Hf] | (_ & root & st1 & ? & ? & ? & ? & ? & ? & ? & Hf & Ht & _)]
         Hex; [| by exists root, st1].
  exists jsondata, st1. split; [done |]. by eapply extracted_from_truthy.
Qed.

(** ** Recursion *)

(** C3. In recursive mode, after a non-empty root response, the requests
    sent are those for the wildcards of the snapshot (the wildcard set as it
    is once the root response is processed), one each, in the order of the
    snapshot, each for the wildcard with every star replaced by [%25]; no
    query contains a star.  Every hostname of every fetched response, the
    recursive ones included, is placed in the collected sets: a wildcard
    found only during the recursion is collected and not requested. *)
Theorem recursion_one_level env domain wildcard exclude_wildcards verbose
    user_agent timeout rate_limit extensions st root st1 sets0 s st2 :
  fetch_subdomains env domain user_agent timeout verbose rate_limit st
  = (inr root, st1) →
  truthy root = true →
  process_entries root empty_sets = inr sets0 →
  process_subdomains env domain true wildcard exclude_wildcards verbose
    user_agent timeout rate_limit extensions st
  = (inr s, st2) →
  let snapshot := enumerate (set_order env) (wildcard_subdomains sets0) in
  snapshot ≡ₚ elements (wildcard_subdomains sets0)
  ∧ (∃ tr, sent st2 = (sent st1 ++ tr)%list
           ∧ requests_made tr
             = (λ w, BASE_URL (PyStr.replace "*" "%25" w)) <$> snapshot)
  ∧ (∀ w, PyStr.contains "*" (PyStr.replace "*" "%25" w) = false)
  ∧ ∃ sets,
      s = filter_extensions extensions
            (merge_wildcards wildcard exclude_wildcards sets)
      ∧ sets_included sets0 sets
      ∧ ∀ jsondata h,
          fetched_by_run env domain true verbose user_agent timeout rate_limit
            st jsondata →
          extracted_from jsondata h →
          placed h sets.
Proof.
  intros Hf Ht Hp Hrun snapshot.
  destruct (run_sets _ _ _ _ _ _ _ _ _ _ _ _ _ _ _ Hrun Hf Ht)
    as (sets0' & sets & Hp' & Hexp & Hs).
  rewrite Hp in Hp'. injection Hp' as <-.
  split; [apply enumerate_perm |].
  split; [by apply expand_wildcards_run in Hexp as (_ & _ & Htr) |].
  split; [intros w; by apply replace_removes |].
  exists sets. split; [done |].
  split; [by apply recursive_step_run in Hexp as [? _] |].
  intros jsondata h Hfetched Hex. by eapply fetched_placed.
Qed.

Lemma recursion_one_level_witness :
  let env := test_env example_script in
  ∃ root st1 sets0 s st2,
    fetch_subdomains env "example.com" "Mozilla/5.0" 25000 false 0 initial_state
    = (inr root, st1)
    ∧ truthy root = true
    ∧ process_entries root empty_sets = inr sets0
    ∧ process_subdomains env "example.com" true true false false "Mozilla/5.0"
        25000 0 None initial_state
      = (inr s, st2)
    ∧ wildcard_subdomains sets0 = {["*.example.com"]}
    ∧ s = {["a.example.com"; "b.example.com"; "*.example.com";
            "*.dev.example.com"]}
    ∧ ∃ tr, sent st2 = (sent st1 ++ tr)%list
            ∧ requests_made tr
              = (λ w, BASE_URL (PyStr.replace "*" "%25" w))
                  <$> enumerate (set_order env) (wildcard_subdomains sets0).
Proof.
  intros env. do 5 eexists.
  split; [by vm_compute |]. split; [reflexivity |].
  split; [by vm_compute |]. split; [by vm_compute |].
  split; [by vm_compute |]. split; [by vm_compute |].
  eapply (recursion_one_level env "example.com" true false false "Mozilla/5.0"
            25000%Z 0%Z None initial_state);
    [by vm_compute | reflexivity | by vm_compute | by vm_compute].
Defined.

(** ** Empty hostnames *)

(** C9. When a fetched record has a line of white space only (or an empty
    line) in its name field, the line trims to the empty string, which has
    no star, and with no extension filter the empty string is a member of
    the result, whatever the wildcard flags are. *)
Theorem whitespace_line_kept env domain recursive wildcard exclude_wildcards
    verbose user_agent timeout rate_limit extensions st s st2 jsondata entries
    fields name_value line :
  process_subdomains env domain recursive wildcard exclude_wildcards verbose
    user_agent timeout rate_limit extensions st
  = (inr s, st2) →
  fetched_by_run env domain recursive verbose user_agent timeout rate_limit st
    jsondata →
  jsondata = JArr entries →
  JObj fields ∈ entries →
  fields !! "name_value" = Some (JStr name_value) →
  line ∈ PyStr.splitlines name_value →
  Forall (λ c, PyStr.isspace c = true) (String.list_ascii_of_string line) →
  option_truthy extensions = false →
  PyStr.strip line = EmptyString
  ∧ PyStr.contains "*" EmptyString = false
  ∧ EmptyString ∈ s.
Proof.
  intros Hrun Hfetched -> Hin Hnv Hline Hws Hext.
  pose proof (strip_whitespace _ Hws) as Hstrip.
  split; [done |]. split; [done |].
  assert (extracted_from (JArr entries) EmptyString) as Hex.
  { exists entries, fields, name_value, line. by rewrite Hstrip. }
  destruct (fetched_by_run_root _ _ _ _ _ _ _ _ _ _ Hfetched Hex)
    as (root & st1 & Hf & Ht).
  destruct (run_sets _ _ _ _ _ _ _ _ _ _ _ _ _ _ _ Hrun Hf Ht)
    as (sets0 & sets & Hp & Hexp & ->).
  pose proof (fetched_placed _ _ _ _ _ _ _ _ _ _ _ _ _ _ _
                Hf Hp Hexp Hfetched Hex) as Hplaced.
  unfold placed in Hplaced. simpl in Hplaced.
  assert (classified sets) as [_ Hw].
  { apply recursive_step_run in Hexp as [_ Hcl]. apply Hcl.
    by eapply process_entries_classified, empty_sets_classified. }
  assert (EmptyString ∈ merge_wildcards wildcard exclude_wildcards sets) as Hm.
  { unfold merge_wildcards.
    assert (EmptyString ∉ wildcard_subdomains sets) as Hnot.
    { intros Hin'. by specialize (Hw _ Hin'). }
    destruct wildcard, exclude_wildcards; set_solver. }
  unfold filter_extensions. destruct extensions as [exts|]; [| done].
  simpl in Hext. by rewrite Hext.
Qed.

Lemma whitespace_line_kept_witness :
  let env := test_env blank_line_script in
  ∃ s st2,
    process_subdomains env "example.com" false false true false "Mozilla/5.0"
      25000 0 None initial_state
    = (inr s, st2)
    ∧ PyStr.strip "  " = EmptyString
    ∧ EmptyString ∈ s.
Proof.
  intros env. do 2 eexists. split; [by vm_compute |].
  assert (∀ P Q R : Prop, P ∧ Q ∧ R → P ∧ R) as Hproj by tauto.
  apply (Hproj _ (PyStr.contains "*" EmptyString = false) _).
  eapply (whitespace_line_kept env "example.com" false false true false
            "Mozilla/5.0" 25000%Z 0%Z None initial_state _ _
            (JArr [record (lines2 "a.example.com" "  ")])
            [record (lines2 "a.example.com" "  ")]
            {[ "name_value" := JStr (lines2 "a.example.com" "  ") ]}
            (lines2 "a.example.com" "  ") "  ").
  - by vm_compute.
  - left. eexists. by vm_compute.
  - reflexivity.
  - apply list_elem_of_In. simpl. tauto.
  - reflexivity.
  - apply list_elem_of_In. vm_compute. tauto.
  - repeat constructor.
  - reflexivity.
Defined.

(** ** Saving *)

Lemma string_compare_refl s : String.compare s s = Eq.
Proof.
  induction s as [|c s IH]; simpl; [done |].
  unfold Ascii.compare. by rewrite N.compare_refl.
Qed.

Lemma string_lt_trans a : ∀ b c,
  String.compare a b = Lt → String.compare b c = Lt → String.compare a c = Lt.
Proof.
  induction a as [|x a IH]; intros [|y b] [|z c]; simpl; try done.
  unfold Ascii.compare.
  destruct (N.compare_spec (N_of_ascii x) (N_of_ascii y)) as [Hxy | Hxy | Hxy];
    try done;
    destruct (N.compare_spec (N_of_ascii y) (N_of_ascii z)) as [Hyz | Hyz | Hyz];
    try done; intros H1 H2.
  - rewrite Hxy, Hyz, N.compare_refl. by eapply IH.
  - rewrite Hxy. by apply N.compare_lt_iff in Hyz as ->.
  - rewrite <- Hyz. by apply N.compare_lt_iff in Hxy as ->.
  - assert (N_of_ascii x < N_of_ascii z)%N as H by lia.
    by apply N.compare_lt_iff in H as ->.
Qed.

Lemma le_compare a b : PyStr.le a b ↔ String.compare a b ≠ Gt.
Proof.
  unfold PyStr.le, String.leb. destruct (String.compare a b); split; done.
Qed.

#[global] Instance le_total : Total PyStr.le.
Proof. intros a b. apply String.leb_total. Qed.

#[global] Instance le_trans : Transitive PyStr.le.
Proof.
  intros a b c. rewrite !le_compare. intros Hab Hbc.
  destruct (String.compare a b) eqn:E1; [| | done].
  - apply String.compare_eq_iff in E1 as ->. done.
  - destruct (String.compare b c) eqn:E2; [| | done].
    + apply String.compare_eq_iff in E2 as <-. by rewrite E1.
    + by rewrite (string_lt_trans _ _ _ E1 E2).
Qed.

Lemma sorted_enumerate (order : SetOrder) (s : gset string) :
  PyStr.sorted (order s) ≡ₚ elements s
  ∧ StronglySorted PyStr.le (PyStr.sorted (order s)).
Proof.
  unfold PyStr.sorted. split.
  - by rewrite merge_sort_Permutation, enumerate_perm.
  - apply (StronglySorted_merge_sort _); apply _.
Qed.

(** What [save_to_file] does when the file can be opened. *)
Lemma save_to_file_run env (s : gset string) output_file output_format st :
  can_open env output_file = true →
  save_to_file env s output_file output_format st
  = (inr tt,
     record_log INFO ("Subdomains saved to " ++ output_file)
       (record_file output_file
          (if bool_decide (output_format = Some "json")
           then FileJson
                  (JObj {[ "subdomains" := JArr (JStr <$> set_order env s) ]})
           else FileText (csv_text env s))
          st)).
Proof.
  intros Hopen. unfold save_to_file, try_except. rewrite bind_unfold.
  destruct (bool_decide (output_format = Some "json"));
    unfold write_file; rewrite Hopen; reflexivity.
Qed.

(** C7. When the output file can be opened, [save_to_file] returns
    normally; with format [json] the file holds one object whose only field
    [subdomains] is the list of the members of the set (in some order);
    with format [csv] or none it holds the members in increasing
    lexicographic order, each followed by a newline. *)
Theorem save_to_file_content env (s : gset string) output_file output_format st :
  can_open env output_file = true →
  let run := save_to_file env s output_file output_format st in
  run.1 = inr tt
  ∧ (output_format = Some "json" →
     ∃ members,
       members ≡ₚ elements s
       ∧ files run.2 !! output_file
         = Some (FileJson (JObj {[ "subdomains" := JArr (JStr <$> members) ]})))
  ∧ (output_format = Some "csv" ∨ output_format = None →
     ∃ lines,
       lines ≡ₚ elements s
       ∧ StronglySorted PyStr.le lines
       ∧ files run.2 !! output_file
         = Some (FileText
                   (PyStr.concat
                      ((λ h, h ++ String PyStr.LF EmptyString)%string
                         <$> lines)))).
Proof.
  intros Hopen run. unfold run. rewrite save_to_file_run by done. simpl.
  split; [done |]. split.
  - intros ->. exists (set_order env s). split; [apply enumerate_perm |].
    by rewrite lookup_insert_eq.
  - intros Hfmt. exists (PyStr.sorted (set_order env s)).
    destruct (sorted_enumerate (set_order env) s) as [Hperm Hsorted].
    split; [done |]. split; [done |].
    rewrite lookup_insert_eq.
    by destruct Hfmt as [-> | ->].
Qed.

Lemma save_to_file_content_witness :
  let env := test_env [] in
  let s : gset string := {["b.example.com"; "a.example.com"]} in
  can_open env "out.txt" = true
  ∧ files (save_to_file env s "out.txt" None initial_state).2 !! "out.txt"
    = Some (FileText (lines2 "a.example.com"
                        (lines2 "b.example.com" EmptyString)))
  ∧ files (save_to_file env s "out.json" (Some "json") initial_state).2
      !! "out.json"
    = Some (FileJson
              (JObj {[ "subdomains" :=
                         JArr [JStr "a.example.com"; JStr "b.example.com"] ]})).
Proof.
  intros env s. split; [reflexivity |].
  destruct (save_to_file_content env s "out.txt" None initial_state eq_refl)
    as (_ & _ & Hcsv).
  destruct (Hcsv (or_intror eq_refl)) as (lines & _ & _ & Hfile).
  split; [| by vm_compute].
  rewrite Hfile. by vm_compute.
Defined.

(** ** The technique flag *)
























(** ** The scenarios of the specification *)

Example scenario_concrete_only :
  (process_subdomains (test_env example_script) "example.com" false false false
     false "Mozilla/5.0" 25000 0 None initial_state).1
  = inr {["a.example.com"]}.
Proof. by vm_compute. Qed.

Example scenario_with_wildcards :
  (process_subdomains (test_env example_script) "example.com" false true false
     false "Mozilla/5.0" 25000 0 None initial_state).1
  = inr {["a.example.com"; "*.example.com"]}.
Proof. by vm_compute. Qed.

Example scenario_exclude_wins :
  (process_subdomains (test_env example_script) "example.com" false true true
     false "Mozilla/5.0" 25000 0 None initial_state).1
  = inr {["a.example.com"]}.
Proof. by vm_compute. Qed.

Example scenario_root_fetch_fails :
  (process_subdomains (test_env []) "example.com" true true false false
     "Mozilla/5.0" 25000 0 None initial_state).1
  = inr ∅.
Proof. by vm_compute. Qed.

Example scenario_extensions :
  (process_subdomains (test_env extension_script) "example.com" false false
     false false "Mozilla/5.0" 25000 0 (Some "org") initial_state).1
  = inr {["b.example.org"]}.
Proof. by vm_compute. Qed.

Example scenario_json_file :
  files (save_to_file (test_env []) {["x.example.com"]} "out.json"
           (Some "json") initial_state).2 !! "out.json"
  = Some (FileJson (JObj {[ "subdomains" := JArr [JStr "x.example.com"] ]})).
Proof. by vm_compute. Qed.

(** A negative [--rate-limit] makes [time.sleep] raise, outside the
    [except] of the fetch: the run ends in the handler of the main block. *)
Example scenario_negative_rate_limit :
  (process_subdomains (test_env example_script) "example.com" false false false
     false "Mozilla/5.0" 25000 (-1) None initial_state).1
  = inl ValueError.
Proof. by vm_compute. Qed.

(** * Further properties of the script *)

(** ** The hostnames of a result *)

Lemma chars_app a b :
  String.list_ascii_of_string (a ++ b)
  = (String.list_ascii_of_string a ++ String.list_ascii_of_string b)%list.
Proof. induction a as [|y a IHa]; simpl; [done | by rewrite IHa]. Qed.

Lemma no_linebreak_snoc line c :
  no_linebreak line → PyStr.islinebreak c = false →
  no_linebreak (PyStr.snoc line c).
Proof.
  unfold no_linebreak, PyStr.snoc. rewrite chars_app. intros H1 H2.
  apply Forall_app. split; [done |]. by apply Forall_singleton.
Qed.

Lemma CR_islinebreak c : Ascii.eqb c PyStr.CR = true → PyStr.islinebreak c = true.
Proof. by intros ->%Ascii.eqb_eq. Qed.

Lemma splitlines_from_no_linebreak n : ∀ s line,
  String.length s < n → no_linebreak line →
  Forall no_linebreak (PyStr.splitlines_from line s).
Proof.
  induction n as [|n IH]; intros s line Hlen Hline; [lia |].
  destruct s as [|c s]; simpl.
  - destruct line; [constructor | by apply Forall_singleton].
  - simpl in Hlen.
    destruct (Ascii.eqb c PyStr.CR) eqn:Hcr.
    + destruct s as [|c' s'].
      * constructor; [done |]. apply IH; [simpl; lia | constructor].
      * destruct (Ascii.eqb c' PyStr.LF); constructor; try done;
          apply IH; simpl in *; try lia; constructor.
    + destruct (PyStr.islinebreak c) eqn:Hlb.
      * constructor; [done |]. apply IH; [lia | constructor].
      * apply IH; [lia |]. by apply no_linebreak_snoc.
Qed.

Lemma splitlines_no_linebreak s : Forall no_linebreak (PyStr.splitlines s).
Proof.
  apply (splitlines_from_no_linebreak (S (String.length s))); [lia | constructor].
Qed.

Lemma lstrip_no_linebreak s : no_linebreak s → no_linebreak (PyStr.lstrip s).
Proof.
  unfold no_linebreak. induction s as [|c s IH]; simpl; [done |].
  intros H. destruct (PyStr.isspace c); [| done].
  apply IH. by apply Forall_cons in H as [_ H].
Qed.

Lemma rstrip_no_linebreak s : no_linebreak s → no_linebreak (PyStr.rstrip s).
Proof.
  unfold no_linebreak. induction s as [|c s IH]; simpl; [done |].
  intros [Hc H]%Forall_cons. specialize (IH H).
  destruct (PyStr.rstrip s) as [|c' r].
  - destruct (PyStr.isspace c); [constructor | by apply Forall_singleton].
  - simpl. by constructor.
Qed.

Lemma strip_no_linebreak s : no_linebreak s → no_linebreak (PyStr.strip s).
Proof. intros H. by apply rstrip_no_linebreak, lstrip_no_linebreak. Qed.

Lemma lstrip_head s :
  match PyStr.lstrip s with
  | EmptyString => True
  | String c _ => PyStr.isspace c = false
  end.
Proof.
  induction s as [|c s IH]; simpl; [done |].
  destruct (PyStr.isspace c) eqn:E; [done |]. simpl. done.
Qed.

Lemma rstrip_idem s : PyStr.rstrip (PyStr.rstrip s) = PyStr.rstrip s.
Proof.
  induction s as [|c s IH]; simpl; [done |].
  destruct (PyStr.rstrip s) as [|c' r] eqn:E.
  - destruct (PyStr.isspace c) eqn:Hc; simpl; [done | by rewrite Hc].
  - simpl in *. by rewrite IH.
Qed.

Lemma rstrip_head c s :
  PyStr.isspace c = false →
  ∃ r, PyStr.rstrip (String c s) = String c r.
Proof.
  intros Hc. simpl. destruct (PyStr.rstrip s) as [|c' r]; rewrite ?Hc; eauto.
Qed.

Lemma lstrip_rstrip_lstrip s :
  PyStr.lstrip (PyStr.rstrip (PyStr.lstrip s)) = PyStr.rstrip (PyStr.lstrip s).
Proof.
  pose proof (lstrip_head s) as H.
  destruct (PyStr.lstrip s) as [|c t]; [done |].
  destruct (rstrip_head c t H) as [r ->]. simpl. by rewrite H.
Qed.

Lemma strip_idem s : PyStr.strip (PyStr.strip s) = PyStr.strip s.
Proof.
  unfold PyStr.strip. by rewrite lstrip_rstrip_lstrip, rstrip_idem.
Qed.

Lemma add_subdomain_names P h sets :
  P h → all_names P sets → all_names P (add_subdomain h sets).
Proof.
  intros Hh Hs x. unfold add_subdomain.
  destruct (PyStr.contains "*" h); simpl; rewrite elem_of_union, elem_of_singleton;
    intros [[-> | ?] | ?] || intros [? | [-> | ?]]; auto.
Qed.

Lemma add_subnames_names P subnames sets :
  Forall (λ line, P (PyStr.strip line)) subnames →
  all_names P sets → all_names P (add_subnames subnames sets).
Proof.
  unfold add_subnames. revert sets.
  induction subnames as [|l subnames IH]; simpl; intros sets Hall Hs; [done |].
  apply Forall_cons in Hall as [Hl Hall].
  apply IH; [done |]. by apply add_subdomain_names.
Qed.

Lemma add_entry_names P entry sets sets' :
  (∀ s, Forall (λ line, P (PyStr.strip line)) (PyStr.splitlines s)) →
  add_entry entry sets = inr sets' →
  all_names P sets → all_names P sets'.
Proof.
  intros HP (fields & subnames & -> & Hs & ->)%add_entry_inv Hsets.
  apply add_subnames_names; [| done].
  destruct (default (JStr EmptyString) (fields !! "name_value"));
    simpl in Hs; try discriminate.
  injection Hs as <-. apply HP.
Qed.

Lemma add_entries_names P entries sets sets' :
  (∀ s, Forall (λ line, P (PyStr.strip line)) (PyStr.splitlines s)) →
  add_entries entries sets = inr sets' →
  all_names P sets → all_names P sets'.
Proof.
  intros HP. revert sets. induction entries as [|entry rest IH]; intros sets.
  - by intros [= <-].
  - intros (mid & H1 & H2)%add_entries_cons_inv Hs.
    eapply IH; [done |]. by eapply add_entry_names.
Qed.

Lemma process_entries_names P jsondata sets sets' :
  (∀ s, Forall (λ line, P (PyStr.strip line)) (PyStr.splitlines s)) →
  process_entries jsondata sets = inr sets' →
  all_names P sets → all_names P sets'.
Proof.
  intros HP (entries & _ & H)%process_entries_inv. by eapply add_entries_names.
Qed.

Lemma expand_wildcards_names P env user_agent timeout verbose rate_limit snapshot :
  (∀ s, Forall (λ line, P (PyStr.strip line)) (PyStr.splitlines s)) →
  ∀ sets st sets' st',
    expand_wildcards env user_agent timeout verbose rate_limit snapshot sets st
    = (inr sets', st') →
    all_names P sets → all_names P sets'.
Proof.
  intros HP. induction snapshot as [|w snapshot IH]; intros sets st sets' st'.
  - by intros [= <- <-].
  - simpl. rewrite bind_unfold, expand_wildcard_unfold.
    destruct (fetch_subdomains _ _ _ _ _ _ _) as [[e | j] st1]; [discriminate |].
    destruct (truthy j).
    + destruct (process_entries j sets) as [e | sets1] eqn:Hp; [discriminate |].
      intros Hrest Hs. eapply IH; [exact Hrest |].
      by eapply process_entries_names.
    + apply IH.
Qed.

(** The shape of a run that returns. *)
Lemma run_cases env domain recursive wildcard exclude_wildcards verbose
    user_agent timeout rate_limit extensions st s st' :
  process_subdomains env domain recursive wildcard exclude_wildcards verbose
    user_agent timeout rate_limit extensions st
  = (inr s, st') →
  ∃ root st1,
    fetch_subdomains env domain user_agent timeout verbose rate_limit st
    = (inr root, st1)
    ∧ ((truthy root = false ∧ s = ∅ ∧ st' = st1)
       ∨ (truthy root = true
          ∧ ∃ sets0 sets,
              process_entries root empty_sets = inr sets0
              ∧ recursive_step env recursive verbose user_agent timeout
                  rate_limit sets0 st1
                = (inr sets, st')
              ∧ s = filter_extensions extensions
                      (merge_wildcards wildcard exclude_wildcards sets))).
Proof.
  rewrite process_subdomains_unfold.
  destruct (fetch_subdomains _ _ _ _ _ _ _) as [[e | root] st1] eqn:Hf;
    [discriminate |].
  intros Hrun. exists root, st1. split; [done |].
  destruct (truthy root) eqn:Ht.
  - right. split; [done |].
    destruct (process_entries root empty_sets) as [e | sets0] eqn:Hp;
      [discriminate |].
    destruct (recursive_step _ _ _ _ _ _ _ _) as [[e | sets] st2] eqn:Hexp;
      [discriminate |].
    injection Hrun as <- <-. by exists sets0, sets.
  - left. by injection Hrun as <- <-.
Qed.

Lemma recursive_step_names P env recursive verbose user_agent timeout rate_limit
    sets0 st1 sets st2 :
  (∀ s, Forall (λ line, P (PyStr.strip line)) (PyStr.splitlines s)) →
  recursive_step env recursive verbose user_agent timeout rate_limit sets0 st1
  = (inr sets, st2) →
  all_names P sets0 → all_names P sets.
Proof.
  intros HP. unfold recursive_step. destruct recursive.
  - by apply expand_wildcards_names.
  - by intros [= <- <-].
Qed.

Lemma elem_of_filter_extensions extensions (s : gset string) h :
  h ∈ filter_extensions extensions s → h ∈ s.
Proof.
  unfold filter_extensions. destruct extensions as [exts|]; [| done].
  destruct (PyStr.truthy exts); [| done]. by intros [_ ?]%elem_of_filter.
Qed.

Lemma elem_of_merge_wildcards wildcard exclude_wildcards sets h :
  h ∈ merge_wildcards wildcard exclude_wildcards sets →
  h ∈ subdomains sets ∨ h ∈ wildcard_subdomains sets.
Proof.
  unfold merge_wildcards. destruct wildcard, exclude_wildcards; set_solver.
Qed.

(** Every member of a result satisfies what every trimmed line satisfies. *)
Lemma run_result_names P env domain recursive wildcard exclude_wildcards verbose
    user_agent timeout rate_limit extensions st s st' :
  (∀ s, Forall (λ line, P (PyStr.strip line)) (PyStr.splitlines s)) →
  process_subdomains env domain recursive wildcard exclude_wildcards verbose
    user_agent timeout rate_limit extensions st
  = (inr s, st') →
  ∀ h, h ∈ s → P h.
Proof.
  intros HP (root & st1 & _ & [(_ & -> & _) | (_ & sets0 & sets & Hp & Hexp & ->)])
         %run_cases h Hh.
  - by apply not_elem_of_empty in Hh.
  - apply elem_of_filter_extensions, elem_of_merge_wildcards in Hh.
    eapply (recursive_step_names P); [done | exact Hexp | | done].
    eapply process_entries_names; [done | exact Hp |].
    intros x [Hx | Hx]; simpl in Hx; by apply not_elem_of_empty in Hx.
Qed.

(** X1. Every hostname of a result is trimmed (stripping it again changes
    nothing) and holds no line boundary: what is returned are single,
    clean lines. *)
Theorem result_hostnames_tidy env domain recursive wildcard exclude_wildcards
    verbose user_agent timeout rate_limit extensions st s st' :
  process_subdomains env domain recursive wildcard exclude_wildcards verbose
    user_agent timeout rate_limit extensions st
  = (inr s, st') →
  ∀ h, h ∈ s → trimmed h ∧ no_linebreak h.
Proof.
  apply (run_result_names (λ h, trimmed h ∧ no_linebreak h)).
  intros x. eapply Forall_impl; [apply splitlines_no_linebreak |].
  intros line Hline. split; [apply strip_idem | by apply strip_no_linebreak].
Qed.

Lemma result_hostnames_tidy_witness :
  ∃ s st',
    process_subdomains (test_env blank_line_script) "example.com" false false
      false false "Mozilla/5.0" 25000 0 None initial_state
    = (inr s, st')
    ∧ "a.example.com" ∈ s
    ∧ trimmed "a.example.com" ∧ no_linebreak "a.example.com".
Proof.
  do 2 eexists. split; [by vm_compute |].
  assert ("a.example.com"
          ∈ ({["a.example.com"; EmptyString]} : gset string)) as Hin
    by set_solver.
  split; [by vm_compute |].
  eapply (result_hostnames_tidy (test_env blank_line_script) "example.com"
            false false false false "Mozilla/5.0" 25000 0 None initial_state);
    [by vm_compute | exact Hin].
Defined.

(** X2. Unless wildcards are asked for and not excluded, no hostname of a
    result contains a star. *)
Theorem no_wildcard_unless_asked env domain recursive wildcard
    exclude_wildcards verbose user_agent timeout rate_limit extensions st s st' :
  process_subdomains env domain recursive wildcard exclude_wildcards verbose
    user_agent timeout rate_limit extensions st
  = (inr s, st') →
  wildcard = false ∨ exclude_wildcards = true →
  ∀ h, h ∈ s → PyStr.contains "*" h = false.
Proof.
  intros (root & st1 & _ & [(_ & -> & _) | (_ & sets0 & sets & Hp & Hexp & ->)])
         %run_cases Hflags h Hh.
  - by apply not_elem_of_empty in Hh.
  - apply elem_of_filter_extensions in Hh.
    destruct (collected_classified _ _ _ _ _ _ _ _ _ _ _ Hp Hexp) as [Hc Hw].
    unfold merge_wildcards in Hh.
    destruct Hflags as [-> | ->].
    + destruct exclude_wildcards; [apply elem_of_difference in Hh as [Hh _] |];
        by apply Hc.
    + apply elem_of_difference in Hh as [Hh Hn].
      destruct wildcard; [| by apply Hc].
      apply elem_of_union in Hh as [Hh | Hh]; [by apply Hc | done].
Qed.

Lemma no_wildcard_unless_asked_witness :
  ∃ s st',
    process_subdomains (test_env example_script) "example.com" true true true
      false "Mozilla/5.0" 25000 0 None initial_state
    = (inr s, st')
    ∧ (true = false ∨ true = true)
    ∧ "b.example.com" ∈ s
    ∧ PyStr.contains "*" "b.example.com" = false.
Proof.
  do 2 eexists. split; [by vm_compute |].
  split; [by right |].
  assert ("b.example.com"
          ∈ ({["a.example.com"; "b.example.com"]} : gset string)) as Hin
    by set_solver.
  split; [by vm_compute |].
  eapply (no_wildcard_unless_asked (test_env example_script) "example.com"
            true true true false "Mozilla/5.0" 25000 0 None initial_state);
    [by vm_compute | by right | exact Hin].
Defined.

Lemma fetch_subdomains_outcome env domain user_agent timeout verbose rate_limit
    st :
  fetch_subdomains env domain user_agent timeout verbose rate_limit st
  = let '(rg, stg) := session_get env default_session (BASE_URL domain)
                        user_agent timeout st in
    fetch_outcome env domain verbose rate_limit rg stg.
Proof.
  unfold fetch_subdomains. fold default_session.
  unfold try_except. rewrite bind_unfold.
  destruct (session_get _ _ _ _ _ _) as [[e | resp] stg]; [done |].
  unfold fetch_outcome, raise_for_status.
  destruct ((400 <=? status_code resp) && (status_code resp <? 600))%Z; [done |].
  unfold time_sleep, response_json, logging_info, bind, ret, raise.
  by destruct verbose, (rate_limit <? 0)%Z, (body resp).
Qed.

Lemma status_range resp :
  ((400 <=? status_code resp) && (status_code resp <? 600))%Z = true
  ↔ (400 ≤ status_code resp < 600)%Z.
Proof. rewrite andb_true_iff, Z.leb_le, Z.ltb_lt. tauto. Qed.

Lemma session_get_raises env url user_agent timeout st e stg :
  (0 < timeout)%Z →
  session_get env default_session url user_agent timeout st = (inl e, stg) →
  is_RequestException e = true.
Proof.
  intros Ht Hget.
  destruct (session_get_run _ _ _ _ _ _ _ Ht Hget) as (n & _ & _ & _ & _ & Hall).
  destruct (Hall n ltac:(lia)) as [_ Hlast]. by destruct (Hlast eq_refl).
Qed.









(** ** Runs of the pipeline *)



(** X8. A wildcard whose request fails is passed over: the loop goes on with the
    sets as they were. *)
Theorem failed_expansion_skipped env user_agent timeout verbose rate_limit w
    rest sets st rg stg :
  (0 < timeout)%Z →
  session_get env default_session (BASE_URL (PyStr.replace "*" "%25" w))
    user_agent timeout st
  = (rg, stg) →
  request_failed rg →
  ∃ st1,
    sent st1 = sent stg ∧ slept st1 = slept stg
    ∧ expand_wildcards env user_agent timeout verbose rate_limit (w :: rest)
        sets st
      = expand_wildcards env user_agent timeout verbose rate_limit rest sets st1.
Proof.
  intros Ht Hget Hfail. simpl. rewrite bind_unfold, expand_wildcard_unfold.
  rewrite fetch_subdomains_outcome, Hget. unfold fetch_outcome.
  destruct rg as [e | resp].
  - rewrite (session_get_raises _ _ _ _ _ _ _ Ht Hget). simpl.
    eexists. split; [| split]; [| | reflexivity]; reflexivity.
  - apply status_range in Hfail. rewrite Hfail. simpl.
    eexists. split; [| split]; [| | reflexivity]; reflexivity.
Qed.

Lemma failed_expansion_skipped_witness :
  let env := test_env [] in
  let run := session_get env default_session
               (BASE_URL (PyStr.replace "*" "%25" "*.example.com"))
               "Mozilla/5.0" 25000 initial_state in
  (0 < 25000)%Z ∧ request_failed run.1
  ∧ (expand_wildcards env "Mozilla/5.0" 25000 false 0 ["*.example.com"]
       empty_sets initial_state).1
    = inr empty_sets.
Proof.
  intros env run. split; [lia |]. split; [exact I |].
  destruct (failed_expansion_skipped env "Mozilla/5.0" 25000 false 0
              "*.example.com" [] empty_sets initial_state run.1 run.2)
    as (st1 & _ & _ & ->); [lia | apply surjective_pairing | exact I |].
  reflexivity.
Defined.

Lemma add_entry_ok entry sets :
  entry_ok entry = true → ∃ sets', add_entry entry sets = inr sets'.
Proof.
  unfold entry_ok, add_entry. destruct entry as [| | | | |fields]; try done.
  simpl. destruct (fields !! "name_value") as [[]|]; try done; simpl; eauto.
Qed.

Lemma add_entry_bad entry sets :
  entry_ok entry = false → add_entry entry sets = inl AttributeError.
Proof.
  unfold entry_ok, add_entry. destruct entry as [| | | | |fields]; try done.
  simpl. by destruct (fields !! "name_value") as [[]|].
Qed.

Lemma add_entries_ok entries : ∀ sets,
  forallb entry_ok entries = true → ∃ sets', add_entries entries sets = inr sets'.
Proof.
  induction entries as [|entry rest IH]; intros sets; simpl; [eauto |].
  intros [Hentry Hrest]%andb_true_iff.
  destruct (add_entry_ok entry sets Hentry) as [mid ->]. simpl. by apply IH.
Qed.

Lemma add_entries_bad entries : ∀ sets,
  forallb entry_ok entries = false → add_entries entries sets = inl AttributeError.
Proof.
  induction entries as [|entry rest IH]; intros sets; simpl; [done |].
  destruct (entry_ok entry) eqn:Hentry; simpl.
  - intros Hrest. destruct (add_entry_ok entry sets Hentry) as [mid ->].
    simpl. by apply IH.
  - intros _. by rewrite add_entry_bad.
Qed.

(** X9. A response with a record that is not an object, or whose name field is
    not a string, makes the run raise [AttributeError]. *)
Theorem malformed_record_raises env domain recursive wildcard
    exclude_wildcards verbose user_agent timeout rate_limit extensions st
    entries st1 :
  fetch_subdomains env domain user_agent timeout verbose rate_limit st
  = (inr (JArr entries), st1) →
  forallb entry_ok entries = false →
  process_subdomains env domain recursive wildcard exclude_wildcards verbose
    user_agent timeout rate_limit extensions st
  = (inl AttributeError, st1).
Proof.
  intros Hf Hbad. rewrite process_subdomains_unfold, Hf.
  assert (truthy (JArr entries) = true) as -> by (by destruct entries).
  unfold process_entries. simpl. by rewrite add_entries_bad.
Qed.

Lemma malformed_record_raises_witness :
  ∃ st1,
    fetch_subdomains (test_env null_name_script) "example.com" "Mozilla/5.0"
      25000 false 0 initial_state
    = (inr (JArr [record "a.example.com"; JObj {[ "name_value" := JNull ]}]),
       st1)
    ∧ process_subdomains (test_env null_name_script) "example.com" false false
        false false "Mozilla/5.0" 25000 0 None initial_state
      = (inl AttributeError, st1).
Proof.
  eexists. split; [by vm_compute |].
  apply (malformed_record_raises (test_env null_name_script) "example.com"
           false false false false "Mozilla/5.0" 25000 0 None initial_state
           [record "a.example.com"; JObj {[ "name_value" := JNull ]}]);
    by vm_compute.
Defined.

Lemma map_to_list_nonempty (fields : gmap string json) :
  Nat.eqb (size fields) 0 = false →
  ∃ k v rest, map_to_list fields = (k, v) :: rest.
Proof.
  unfold size, map_size. intros H%Nat.eqb_neq.
  rewrite map_fold_foldr in H.
  destruct (map_to_list fields) as [|[k v] rest]; [done | eauto].
Qed.

(** X10. A response that is not a list: the falsy ones are taken as no data, a
    number or [true] cannot be iterated, an object or a string yields keys or
    characters, which have no [get]. *)
Theorem non_list_response env domain recursive wildcard exclude_wildcards
    verbose user_agent timeout rate_limit extensions st root st1 :
  fetch_subdomains env domain user_agent timeout verbose rate_limit st
  = (inr root, st1) →
  (∀ items, root ≠ JArr items) →
  process_subdomains env domain recursive wildcard exclude_wildcards verbose
    user_agent timeout rate_limit extensions st
  = (if truthy root
     then inl match root with
              | JBool _ | JNum _ => TypeError
              | _ => AttributeError
              end
     else inr ∅,
     st1).
Proof.
  intros Hf Hnot. rewrite process_subdomains_unfold, Hf.
  destruct (truthy root) eqn:Ht; [| done].
  unfold process_entries.
  destruct root as [| b | n | s | items | fields]; simpl in *; try done.
  - destruct s as [|c s]; [done |]. done.
  - by destruct (Hnot items).
  - apply negb_true_iff in Ht.
    destruct (map_to_list_nonempty fields Ht) as (k & v & rest & ->). done.
Qed.

Lemma non_list_response_witness :
  ∃ st1,
    fetch_subdomains (test_env error_object_script) "example.com" "Mozilla/5.0"
      25000 false 0 initial_state
    = (inr (JObj {[ "error" := JStr "rate limited" ]}), st1)
    ∧ process_subdomains (test_env error_object_script) "example.com" false
        false false false "Mozilla/5.0" 25000 0 None initial_state
      = (inl AttributeError, st1).
Proof.
  eexists. split; [by vm_compute |].
  etransitivity;
    [apply (non_list_response (test_env error_object_script) "example.com"
              false false false false "Mozilla/5.0" 25000 0 None initial_state
              (JObj {[ "error" := JStr "rate limited" ]}));
       [by vm_compute | done]
    | reflexivity].
Defined.

(** X11. From the same state and with the same flags, the result of the
    recursive run includes the result of the run without recursion. *)
Theorem recursion_only_adds env domain wildcard exclude_wildcards verbose
    user_agent timeout rate_limit extensions st s0 st0 s1 st1 :
  process_subdomains env domain false wildcard exclude_wildcards verbose
    user_agent timeout rate_limit extensions st
  = (inr s0, st0) →
  process_subdomains env domain true wildcard exclude_wildcards verbose
    user_agent timeout rate_limit extensions st
  = (inr s1, st1) →
  s0 ⊆ s1.
Proof.
  intros (root & sta & Hf & Hcase0)%run_cases
         (root' & sta' & Hf' & Hcase1)%run_cases.
  rewrite Hf in Hf'. injection Hf' as <- <-.
  destruct Hcase0 as [(Ht & -> & _) | (Ht & sets0 & sets & Hp & Hexp & ->)];
    [set_solver |].
  destruct Hcase1 as [(Ht' & _) | (_ & sets0' & sets' & Hp' & Hexp' & ->)];
    [congruence |].
  rewrite Hp in Hp'. injection Hp' as <-.
  unfold recursive_step in Hexp. injection Hexp as <- <-.
  pose proof (collected_classified _ _ _ _ _ _ _ _ _ _ _ Hp Hexp') as [Hc Hw].
  apply recursive_step_run in Hexp' as [[HC HW] _].
  assert (merge_wildcards wildcard exclude_wildcards sets0
          ⊆ merge_wildcards wildcard exclude_wildcards sets') as Hmerge.
  { pose proof (process_entries_classified _ _ _ Hp empty_sets_classified)
      as [Hc0 Hw0].
    unfold merge_wildcards. intros h Hh.
    destruct wildcard, exclude_wildcards.
    - apply elem_of_difference in Hh as [[Hh | Hh]%elem_of_union Hn]; [| done].
      apply elem_of_difference. split; [set_solver |].
      intros Hin. specialize (Hc0 h Hh). specialize (Hw h Hin). congruence.
    - set_solver.
    - apply elem_of_difference in Hh as [Hh Hn].
      apply elem_of_difference. split; [set_solver |].
      intros Hin. specialize (Hc0 h Hh). specialize (Hw h Hin). congruence.
    - set_solver. }
  unfold filter_extensions. destruct extensions as [exts|]; [| done].
  destruct (PyStr.truthy exts); [| done].
  intros h [Hm Hh]%elem_of_filter. apply elem_of_filter. auto.
Qed.

Lemma recursion_only_adds_witness :
  ∃ s0 st0 s1 st1,
    process_subdomains (test_env example_script) "example.com" false false
      false false "Mozilla/5.0" 25000 0 None initial_state
    = (inr s0, st0)
    ∧ process_subdomains (test_env example_script) "example.com" true false
        false false "Mozilla/5.0" 25000 0 None initial_state
      = (inr s1, st1)
    ∧ s0 ⊆ s1.
Proof.
  do 4 eexists. split; [by vm_compute |]. split; [by vm_compute |].
  eapply (recursion_only_adds (test_env example_script) "example.com" false
            false false "Mozilla/5.0" 25000 0 None initial_state);
    by vm_compute.
Defined.

(** X12. The wildcard flags and the extension list are applied after all
    network activity: two runs that differ only in them end in the same
    state (requests, sleeps, log records) and raise the same exception or
    both return. *)
Theorem filters_leave_no_trace env domain recursive verbose user_agent timeout
    rate_limit st wildcard1 exclude1 extensions1 wildcard2 exclude2 extensions2 :
  let run1 := process_subdomains env domain recursive wildcard1 exclude1
                verbose user_agent timeout rate_limit extensions1 st in
  let run2 := process_subdomains env domain recursive wildcard2 exclude2
                verbose user_agent timeout rate_limit extensions2 st in
  run1.2 = run2.2
  ∧ match run1.1, run2.1 with
    | inl e1, inl e2 => e1 = e2
    | inr _, inr _ => True
    | _, _ => False
    end.
Proof.
  intros run1 run2. unfold run1, run2. rewrite !process_subdomains_unfold.
  destruct (fetch_subdomains _ _ _ _ _ _ _) as [[e | root] st1]; [done |].
  destruct (truthy root); [| done].
  destruct (process_entries root empty_sets) as [e | sets0]; [done |].
  by destruct (recursive_step _ _ _ _ _ _ _ _) as [[e | sets] st2].
Qed.

(** ** What the functions leave alone *)

Lemma string_app_nil_r (s : string) : (s ++ EmptyString)%string = s.
Proof.
  induction s as [|c s IH]; [done |].
  change (String c (s ++ EmptyString)%string = String c s). by f_equal.
Qed.

Lemma string_app_assoc (a b c : string) :
  ((a ++ b) ++ c)%string = (a ++ b ++ c)%string.
Proof.
  induction a as [|x a IH]; [done |].
  change (String x ((a ++ b) ++ c)%string = String x (a ++ b ++ c)%string).
  by f_equal.
Qed.

Lemma keeps_ret {A B} (f : State → B) (a : A) : keeps f (ret a).
Proof. done. Qed.

Lemma keeps_lift {A B} (f : State → B) (r : Res A) : keeps f (lift r).
Proof. done. Qed.

Lemma keeps_bind {A A' B} (f : State → B) (c : M A) (k : A → M A') :
  keeps f c → (∀ a, keeps f (k a)) → keeps f (bind c k).
Proof.
  intros Hc Hk st. rewrite bind_unfold. specialize (Hc st).
  destruct (c st) as [[e | a] st1]; [done |].
  simpl in Hc. by rewrite Hk.
Qed.


Lemma urlopen_keeps {B} (f : State → B) env retry url user_agent timeout
    (total : nat) :
  network_blind f →
  ∀ (read connect tries : nat) st,
    f (urlopen env retry url user_agent timeout total read connect tries st).2
    = f st.
Proof.
  intros (Hsent & Hsleep & _).
  assert (∀ failures st, f (sleep_backoff retry failures st) = f st) as Hb.
  { intros failures st. unfold sleep_backoff. by destruct (0 <? _)%Z. }
  assert (∀ failures r st, f (sleep_response retry failures r st) = f st) as Hr.
  { intros failures r st. unfold sleep_response.
    destruct (retry_after r) as [t|]; [| done]. by destruct (0 <? t)%Z. }
  induction total as [|total IH]; intros read connect tries st;
    rewrite urlopen_unfold; cbv zeta;
    destruct (net env (sent st) (attempt url user_agent timeout tries))
      as [| | resp]; simpl; try apply Hsent.
  - destruct (is_retry _ _ _ _); apply Hsent.
  - destruct connect as [|connect']; [apply Hsent |]. by rewrite IH, Hb.
  - destruct read as [|read']; [apply Hsent |]. by rewrite IH, Hb.
  - destruct (is_retry _ _ _ _); [| apply Hsent]. by rewrite IH, Hr.
Qed.

Lemma fetch_subdomains_keeps {B} (f : State → B) env domain user_agent timeout
    verbose rate_limit :
  network_blind f →
  keeps f (fetch_subdomains env domain user_agent timeout verbose rate_limit).
Proof.
  intros Hf st. rewrite fetch_subdomains_outcome.
  assert (f (session_get env default_session (BASE_URL domain) user_agent
               timeout st).2 = f st) as Hget.
  { unfold session_get. destruct (timeout <=? 0)%Z; [done |].
    by apply urlopen_keeps. }
  destruct (session_get _ _ _ _ _ _) as [rg stg]. simpl in Hget.
  destruct Hf as (_ & Hsleep & Hlog). unfold fetch_outcome.
  destruct rg as [e | resp].
  - destruct (is_RequestException e); simpl; by rewrite ?Hlog.
  - destruct (_ && _)%Z; simpl; [by rewrite Hlog |].
    destruct verbose, (rate_limit <? 0)%Z, (body resp); simpl;
      by rewrite ?Hlog, ?Hsleep, ?Hlog.
Qed.

Lemma expand_wildcards_keeps {B} (f : State → B) env user_agent timeout verbose
    rate_limit snapshot :
  network_blind f →
  ∀ sets, keeps f (expand_wildcards env user_agent timeout verbose rate_limit
                     snapshot sets).
Proof.
  intros Hf. induction snapshot as [|w snapshot IH]; intros sets; simpl.
  - apply keeps_ret.
  - apply keeps_bind; [| done]. unfold expand_wildcard.
    apply keeps_bind; [by apply fetch_subdomains_keeps |].
    intros j. destruct (negb (truthy j)); [apply keeps_ret | apply keeps_lift].
Qed.

Lemma process_subdomains_keeps {B} (f : State → B) env domain recursive
    wildcard exclude_wildcards verbose user_agent timeout rate_limit extensions :
  network_blind f →
  keeps f (process_subdomains env domain recursive wildcard exclude_wildcards
             verbose user_agent timeout rate_limit extensions).
Proof.
  intros Hf. unfold process_subdomains.
  apply keeps_bind; [by apply fetch_subdomains_keeps |]. intros j.
  destruct (negb (truthy j)); [apply keeps_ret |].
  apply keeps_bind; [apply keeps_lift |]. intros sets0.
  apply keeps_bind; [| intros sets; apply keeps_ret].
  destruct recursive; [by apply expand_wildcards_keeps | apply keeps_ret].
Qed.

(** X13. [process_subdomains] prints nothing to standard output and opens
    no file for writing, whether it returns or raises: requests, sleeps
    and log records are its only effects. *)
Theorem process_subdomains_silent env domain recursive wildcard
    exclude_wildcards verbose user_agent timeout rate_limit extensions st :
  let run := process_subdomains env domain recursive wildcard exclude_wildcards
               verbose user_agent timeout rate_limit extensions st in
  console run.2 = console st ∧ files run.2 = files st.
Proof.
  intros run. split.
  - by apply (process_subdomains_keeps console).
  - by apply (process_subdomains_keeps files).
Qed.

(** ** Saving, again *)

#[global] Instance le_antisym : AntiSymm (=) PyStr.le.
Proof. intros a b. apply String.leb_antisym. Qed.

(** [sorted] does not depend on the order the set is iterated in. *)
Lemma sorted_order_independent (order : SetOrder) (s : gset string) :
  PyStr.sorted (order s) = PyStr.sorted (elements s).
Proof.
  apply (StronglySorted_unique PyStr.le).
  - apply sorted_enumerate.
  - apply (StronglySorted_merge_sort _); apply _.
  - destruct (sorted_enumerate order s) as [Hperm _].
    etransitivity; [exact Hperm |]. symmetry. apply merge_sort_Permutation.
Qed.

Lemma not_linebreak_not_CR c :
  PyStr.islinebreak c = false → Ascii.eqb c PyStr.CR = false.
Proof.
  intros H. destruct (Ascii.eqb c PyStr.CR) eqn:E; [| done].
  apply CR_islinebreak in E. congruence.
Qed.

Lemma splitlines_from_line h : ∀ line rest,
  no_linebreak h →
  PyStr.splitlines_from line (h ++ String PyStr.LF rest)
  = (line ++ h)%string :: PyStr.splitlines_from EmptyString rest.
Proof.
  induction h as [|c h IH]; intros line rest Hh.
  - by rewrite string_app_nil_r.
  - apply Forall_cons in Hh as [Hc Hh].
    change (String c h ++ String PyStr.LF rest)%string
      with (String c (h ++ String PyStr.LF rest)).
    cbn [PyStr.splitlines_from].
    rewrite (not_linebreak_not_CR c Hc), Hc, IH by done.
    unfold PyStr.snoc. by rewrite string_app_assoc.
Qed.

(** Reading back, line by line, a text written one name per line. *)
Lemma splitlines_written lines :
  Forall no_linebreak lines →
  PyStr.splitlines
    (PyStr.concat ((λ h, h ++ String PyStr.LF EmptyString)%string <$> lines))
  = lines.
Proof.
  unfold PyStr.splitlines.
  induction lines as [|h lines IH]; intros Hall; [done |].
  apply Forall_cons in Hall as [Hh Hall].
  rewrite fmap_cons. cbn [PyStr.concat].
  rewrite string_app_assoc.
  change (String PyStr.LF EmptyString ++ ?x)%string with (String PyStr.LF x).
  rewrite splitlines_from_line by done. by rewrite IH.
Qed.

(** X15. The CSV file, read back by lines, is the sorted list of the members,
    whatever order the set was iterated in. *)
Theorem csv_round_trip env (s : gset string) output_file output_format st :
  can_open env output_file = true →
  output_format ≠ Some "json" →
  (∀ h, h ∈ s → no_linebreak h) →
  ∃ text,
    files (save_to_file env s output_file output_format st).2 !! output_file
    = Some (FileText text)
    ∧ PyStr.splitlines text = PyStr.sorted (elements s).
Proof.
  intros Hopen Hfmt Hs. rewrite save_to_file_run by done. simpl.
  rewrite bool_decide_eq_false_2 by done.
  exists (csv_text env s). split; [by rewrite lookup_insert_eq |].
  unfold csv_text. rewrite sorted_order_independent.
  apply splitlines_written, Forall_forall. intros h Hh. apply Hs.
  assert (PyStr.sorted (elements s) ≡ₚ elements s) as Hperm
    by apply merge_sort_Permutation.
  rewrite Hperm in Hh. by apply elem_of_elements in Hh.
Qed.

Lemma no_linebreak_dec_true s :
  forallb (λ c, negb (PyStr.islinebreak c)) (String.list_ascii_of_string s) = true →
  no_linebreak s.
Proof.
  intros H. apply Forall_forall. intros c Hc%list_elem_of_In.
  rewrite forallb_forall in H. specialize (H c Hc). by apply negb_true_iff in H.
Qed.

Lemma csv_round_trip_witness :
  let env := test_env [] in
  let s : gset string := {["b.example.com"; "a.example.com"; "*.example.com"]} in
  can_open env "out.csv" = true
  ∧ ∃ text,
      files (save_to_file env s "out.csv" (Some "csv") initial_state).2
        !! "out.csv"
      = Some (FileText text)
      ∧ PyStr.splitlines text
        = ["*.example.com"; "a.example.com"; "b.example.com"].
Proof.
  intros env s. split; [reflexivity |].
  destruct (csv_round_trip env s "out.csv" (Some "csv") initial_state)
    as (text & Hfile & Hlines); [reflexivity | done | |].
  - intros h Hh. apply elem_of_elements in Hh.
    assert (elements s = ["a.example.com"; "*.example.com"; "b.example.com"])
      as Hel by (by vm_compute).
    rewrite Hel in Hh. apply list_elem_of_In in Hh.
    destruct Hh as [<- | [<- | [<- | []]]];
      by apply no_linebreak_dec_true.
  - exists text. split; [exact Hfile |]. rewrite Hlines. by vm_compute.
Defined.


(** ** The main block *)










(** ** A server without memory *)

Lemma same_result_trans {A} (r1 r2 r3 : Res A) :
  same_result r1 r2 → same_result r2 r3 → same_result r1 r3.
Proof. destruct r1, r2, r3; simpl; try done. congruence. Qed.

Lemma urlopen_value n envA envB retry url user_agent timeout (total : nat) :
  answers_like n envA → answers_like n envB →
  ∀ (read connect tries : nat) stA stB,
    (urlopen envA retry url user_agent timeout total read connect tries stA).1
    = (urlopen envB retry url user_agent timeout total read connect tries stB).1.
Proof.
  intros HA HB.
  induction total as [|total IH]; intros read connect tries stA stB;
    rewrite !urlopen_unfold; cbv zeta; rewrite HA, HB;
    destruct (n [] (attempt url user_agent timeout tries)) as [| | resp];
    try done.
  - by destruct (is_retry _ _ _ _).
  - destruct connect as [|connect']; [done | apply IH].
  - destruct read as [|read']; [done | apply IH].
  - destruct (is_retry _ _ _ _); [apply IH | done].
Qed.

Lemma fetch_subdomains_value n envA envB domain user_agent timeout verbose
    rate_limit stA stB :
  answers_like n envA → answers_like n envB →
  (fetch_subdomains envA domain user_agent timeout verbose rate_limit stA).1
  = (fetch_subdomains envB domain user_agent timeout verbose rate_limit stB).1.
Proof.
  intros HA HB. rewrite !fetch_subdomains_outcome.
  assert ((session_get envA default_session (BASE_URL domain) user_agent
             timeout stA).1
          = (session_get envB default_session (BASE_URL domain) user_agent
               timeout stB).1) as Hget.
  { unfold session_get. destruct (timeout <=? 0)%Z; [done |].
    by apply (urlopen_value n). }
  destruct (session_get envA _ _ _ _ _) as [rgA stgA].
  destruct (session_get envB _ _ _ _ _) as [rgB stgB].
  simpl in Hget. subst rgB. unfold fetch_outcome.
  destruct rgA as [e | resp].
  - by destruct (is_RequestException e).
  - destruct (_ && _)%Z; [done |].
    by destruct verbose, (rate_limit <? 0)%Z, (body resp).
Qed.

(** What a response adds does not depend on the sets it is added to. *)
Lemma add_entries_shape entries :
  (∃ lines, ∀ sets, add_entries entries sets = inr (add_subnames lines sets))
  ∨ (∃ e, ∀ sets, add_entries entries sets = inl e).
Proof.
  induction entries as [|entry rest IH].
  - left. by exists [].
  - destruct (entry_ok entry) eqn:Hok.
    + assert (∃ lines, ∀ sets, add_entry entry sets
                               = inr (add_subnames lines sets)) as [l1 H1].
      { unfold entry_ok in Hok. destruct entry as [| | | | |fields]; try done.
        unfold add_entry. simpl.
        destruct (fields !! "name_value") as [[| | |s| |]|]; try done;
          [exists (PyStr.splitlines s) | exists []]; intros sets; reflexivity. }
      destruct IH as [[l2 H2] | [e H2]].
      * left. exists (l1 ++ l2)%list. intros sets. simpl.
        rewrite H1. simpl. rewrite H2. unfold add_subnames.
        by rewrite foldl_app.
      * right. exists e. intros sets. simpl. rewrite H1. simpl. apply H2.
    + right. exists AttributeError. intros sets. simpl.
      by rewrite add_entry_bad.
Qed.

Lemma process_entries_shape jsondata :
  (∃ lines, ∀ sets, process_entries jsondata sets
                    = inr (add_subnames lines sets))
  ∨ (∃ e, ∀ sets, process_entries jsondata sets = inl e).
Proof.
  unfold process_entries. destruct (iterate jsondata) as [e | entries].
  - right. by exists e.
  - apply add_entries_shape.
Qed.

Lemma add_subnames_members lines : ∀ sets,
  subdomains (add_subnames lines sets)
  = subdomains sets
    ∪ list_to_set (filter (λ h, PyStr.contains "*" h = false)
                          (PyStr.strip <$> lines))
  ∧ wildcard_subdomains (add_subnames lines sets)
    = wildcard_subdomains sets
      ∪ list_to_set (filter (λ h, PyStr.contains "*" h = true)
                            (PyStr.strip <$> lines)).
Proof.
  unfold add_subnames.
  induction lines as [|l lines IH]; intros sets; simpl.
  - split; set_solver.
  - destruct (IH (add_subdomain (PyStr.strip l) sets)) as [-> ->].
    unfold add_subdomain.
    destruct (PyStr.contains "*" (PyStr.strip l)) eqn:E; simpl.
    + rewrite filter_cons_False by congruence.
      rewrite filter_cons_True by done. split; set_solver.
    + rewrite filter_cons_True by done.
      rewrite filter_cons_False by congruence. split; set_solver.
Qed.

Lemma Sets_eq (a b : Sets) :
  subdomains a = subdomains b →
  wildcard_subdomains a = wildcard_subdomains b → a = b.
Proof. destruct a, b. simpl. by intros -> ->. Qed.

Lemma add_subnames_comm l1 l2 sets :
  add_subnames l1 (add_subnames l2 sets) = add_subnames l2 (add_subnames l1 sets).
Proof.
  destruct (add_subnames_members l1 (add_subnames l2 sets)) as [H1 H2].
  destruct (add_subnames_members l2 (add_subnames l1 sets)) as [H3 H4].
  destruct (add_subnames_members l1 sets) as [H5 H6].
  destruct (add_subnames_members l2 sets) as [H7 H8].
  apply Sets_eq.
  - rewrite H1, H3, H5, H7. set_solver.
  - rewrite H2, H4, H6, H8. set_solver.
Qed.

(** One expansion, on any two memoryless copies of the server: lines are
    added, or it raises, the same whatever the sets and the state. *)
Lemma expand_wildcard_shape n envA envB user_agent timeout verbose rate_limit w :
  answers_like n envA → answers_like n envB →
  (∃ lines, ∀ sets stA stB,
      (expand_wildcard envA user_agent timeout verbose rate_limit w sets stA).1
      = inr (add_subnames lines sets)
      ∧ (expand_wildcard envB user_agent timeout verbose rate_limit w sets stB).1
        = inr (add_subnames lines sets))
  ∨ (∀ sets stA stB,
      (∃ e, (expand_wildcard envA user_agent timeout verbose rate_limit w sets
               stA).1 = inl e)
      ∧ (∃ e, (expand_wildcard envB user_agent timeout verbose rate_limit w sets
                 stB).1 = inl e)).
Proof.
  intros HA HB.
  pose proof (λ stA stB,
                fetch_subdomains_value n envA envB
                  (PyStr.replace "*" "%25" w) user_agent timeout verbose
                  rate_limit stA stB HA HB) as Hval.
  destruct (fetch_subdomains envA (PyStr.replace "*" "%25" w) user_agent timeout
              verbose rate_limit initial_state) as [r0 st0] eqn:H0.
  assert (∀ stA, (fetch_subdomains envA (PyStr.replace "*" "%25" w) user_agent
                    timeout verbose rate_limit stA).1 = r0) as HrA.
  { intros stA.
    rewrite (fetch_subdomains_value n envA envA _ _ _ _ _ stA initial_state HA HA).
    by rewrite H0. }
  assert (∀ stB, (fetch_subdomains envB (PyStr.replace "*" "%25" w) user_agent
                    timeout verbose rate_limit stB).1 = r0) as HrB.
  { intros stB. rewrite <- (Hval initial_state stB). by rewrite H0. }
  assert (∀ env sets st,
            (fetch_subdomains env (PyStr.replace "*" "%25" w) user_agent timeout
               verbose rate_limit st).1 = r0 →
            (expand_wildcard env user_agent timeout verbose rate_limit w sets st).1
            = match r0 with
              | inl e => inl e
              | inr j => if truthy j then process_entries j sets else inr sets
              end) as Hstep.
  { intros env sets st Hr. rewrite expand_wildcard_unfold.
    destruct (fetch_subdomains env _ _ _ _ _ st) as [r st']. simpl in Hr.
    subst r. destruct r0 as [e | j]; [done |]. by destruct (truthy j). }
  destruct r0 as [e | j].
  - right. intros sets stA stB.
    split; exists e; by rewrite Hstep.
  - destruct (truthy j).
    + destruct (process_entries_shape j) as [[lines Hl] | [e He]].
      * left. exists lines. intros sets stA stB.
        split; by rewrite Hstep, ?Hl.
      * right. intros sets stA stB.
        split; exists e; by rewrite Hstep, ?He.
    + left. exists []. intros sets stA stB. split; by rewrite Hstep.
Qed.

Lemma bind_value {A B} (c : M A) (k : A → M B) st :
  (bind c k st).1
  = match (c st).1 with
    | inl e => inl e
    | inr a => (k a (c st).2).1
    end.
Proof. rewrite bind_unfold. by destruct (c st) as [[e | a] st']. Qed.

(** The same snapshot, on two copies, from any states. *)
Lemma expand_wildcards_same n envA envB user_agent timeout verbose rate_limit
    snapshot :
  answers_like n envA → answers_like n envB →
  ∀ sets stA stB,
    same_result
      (expand_wildcards envA user_agent timeout verbose rate_limit snapshot sets
         stA).1
      (expand_wildcards envB user_agent timeout verbose rate_limit snapshot sets
         stB).1.
Proof.
  intros HA HB. induction snapshot as [|w snapshot IH]; intros sets stA stB.
  - done.
  - cbn [expand_wildcards]. rewrite !bind_value.
    destruct (expand_wildcard_shape n envA envB user_agent timeout verbose
                rate_limit w HA HB) as [[lines Hl] | He].
    + destruct (Hl sets stA stB) as [-> ->]. apply IH.
    + destruct (He sets stA stB) as [[eA ->] [eB ->]]. done.
Qed.

(** Two orders of the same wildcards. *)
Lemma expand_wildcards_permuted n user_agent timeout verbose rate_limit l1 l2 :
  l1 ≡ₚ l2 →
  ∀ envA envB, answers_like n envA → answers_like n envB →
  ∀ sets stA stB,
    same_result
      (expand_wildcards envA user_agent timeout verbose rate_limit l1 sets stA).1
      (expand_wildcards envB user_agent timeout verbose rate_limit l2 sets stB).1.
Proof.
  induction 1 as [| x l1 l2 Hperm IH | x y l | l1 l2 l3 H12 IH12 H23 IH23];
    intros envA envB HA HB sets stA stB.
  - done.
  - cbn [expand_wildcards]. rewrite !bind_value.
    destruct (expand_wildcard_shape n envA envB user_agent timeout verbose
                rate_limit x HA HB) as [[lines Hl] | He].
    + destruct (Hl sets stA stB) as [-> ->]. by apply IH.
    + destruct (He sets stA stB) as [[eA ->] [eB ->]]. done.
  - cbn [expand_wildcards]. rewrite !bind_value.
    destruct (expand_wildcard_shape n envA envB user_agent timeout verbose
                rate_limit x HA HB) as [[lx Hx] | Hx];
      destruct (expand_wildcard_shape n envA envB user_agent timeout verbose
                  rate_limit y HA HB) as [[ly Hy] | Hy].
    + destruct (Hy sets stA stB) as [-> _]. destruct (Hx sets stA stB) as [_ ->].
      rewrite !bind_value.
      match goal with
      | |- context [expand_wildcard envA _ _ _ _ x ?s ?st] =>
          destruct (Hx s st stB) as [-> _]
      end.
      match goal with
      | |- context [expand_wildcard envB _ _ _ _ y ?s ?st] =>
          destruct (Hy s stA st) as [_ ->]
      end.
      rewrite (add_subnames_comm lx ly).
      by apply (expand_wildcards_same n).
    + destruct (Hy sets stA stB) as [[eA ->] _].
      destruct (Hx sets stA stB) as [_ ->]. rewrite bind_value.
      match goal with
      | |- context [expand_wildcard envB _ _ _ _ y ?s ?st] =>
          destruct (Hy s stA st) as [_ [eB ->]]
      end.
      done.
    + destruct (Hy sets stA stB) as [-> _]. rewrite bind_value.
      match goal with
      | |- context [expand_wildcard envA _ _ _ _ x ?s ?st] =>
          destruct (Hx s st stB) as [[eA ->] _]
      end.
      destruct (Hx sets stA stB) as [_ [eB ->]]. done.
    + destruct (Hy sets stA stB) as [[eA ->] _].
      destruct (Hx sets stA stB) as [_ [eB ->]]. done.
  - eapply same_result_trans; [by apply (IH12 envA envB) |].
    eapply same_result_trans; [| by apply (IH23 envA envB)].
    Unshelve. all: try exact stA.
    by apply (expand_wildcards_same n).
Qed.

(** X14. Against a server whose answers do not depend on what was requested
    before, the result of a run depends neither on the order in which the
    wildcard set is iterated nor on the state the run starts in: two runs
    return the same set, or both raise. *)
Theorem result_order_independent n envA envB domain recursive wildcard
    exclude_wildcards verbose user_agent timeout rate_limit extensions stA stB :
  answers_like n envA →
  answers_like n envB →
  same_result
    (process_subdomains envA domain recursive wildcard exclude_wildcards verbose
       user_agent timeout rate_limit extensions stA).1
    (process_subdomains envB domain recursive wildcard exclude_wildcards verbose
       user_agent timeout rate_limit extensions stB).1.
Proof.
  intros HA HB. rewrite !process_subdomains_unfold.
  pose proof (fetch_subdomains_value n envA envB domain user_agent timeout
                verbose rate_limit stA stB HA HB) as Hroot.
  destruct (fetch_subdomains envA _ _ _ _ _ stA) as [rA stA1].
  destruct (fetch_subdomains envB _ _ _ _ _ stB) as [rB stB1].
  simpl in Hroot. subst rB. destruct rA as [e | root]; [done |].
  destruct (truthy root); [| done].
  destruct (process_entries root empty_sets) as [e | sets0]; [done |].
  assert (same_result
            (recursive_step envA recursive verbose user_agent timeout
               rate_limit sets0 stA1).1
            (recursive_step envB recursive verbose user_agent timeout
               rate_limit sets0 stB1).1) as Hstep.
  { unfold recursive_step. destruct recursive; [| done].
    apply (expand_wildcards_permuted n); [| done | done].
    etransitivity; [apply enumerate_perm |]. symmetry. apply enumerate_perm. }
  destruct (recursive_step envA _ _ _ _ _ _ _) as [[eA | setsA] stA2];
    destruct (recursive_step envB _ _ _ _ _ _ _) as [[eB | setsB] stB2];
    simpl in *; try done.
  by subst.
Qed.

Lemma result_order_independent_witness :
  let envA := test_env example_script in
  let envB := reversed_env example_script in
  answers_like (scripted example_script) envA
  ∧ answers_like (scripted example_script) envB
  ∧ same_result
      (process_subdomains envA "example.com" true true false false
         "Mozilla/5.0" 25000 0 None initial_state).1
      (process_subdomains envB "example.com" true true false false
         "Mozilla/5.0" 25000 0 None
         (record_log INFO "earlier run" initial_state)).1.
Proof.
  intros envA envB.
  assert (answers_like (scripted example_script) envA) as HA by done.
  assert (answers_like (scripted example_script) envB) as HB by done.
  split; [exact HA |]. split; [exact HB |].
  apply (result_order_independent (scripted example_script) envA envB); done.
Defined.

(** ** What goes on the wire *)



Lemma sends_only_try_except {A} P (body : M A) catches handler :
  sends_only P body → (∀ e, sends_only P (handler e)) →
  sends_only P (try_except body catches handler).
Proof.
  intros Hb Hh st. unfold try_except. destruct (Hb st) as (tr1 & H1 & F1).
  destruct (body st) as [[e | a] st1]; [| by exists tr1].
  destruct (catches e); [| by exists tr1].
  destruct (Hh e st1) as (tr2 & H2 & F2). exists (tr1 ++ tr2)%list. split.
  - simpl in H1. by rewrite H2, H1, app_assoc.
  - by apply Forall_app.
Qed.





(** ** The banner *)



Example banner_of_short_art :
  console (display_ascii_art "SUBHUNTER" initial_state).2
  = (colored decorative_line Colors.GREEN ++ String PyStr.LF EmptyString
     ++ colored (string_times " " 34 ++ "SUBHUNTER") Colors.GREEN
     ++ String PyStr.LF EmptyString
     ++ colored decorative_line Colors.GREEN ++ String PyStr.LF EmptyString)%string.
Proof. by vm_compute. Qed.
